(** * cbfsclient restore: a shallow embedding of [restore.go]

    The restore command reads a gzip-compressed stream of JSON records
    ([restoreWorkItem]), keeps the records whose path matches a regular
    expression, hands each of them over an unbuffered channel to one of
    [*restoreWorkers] goroutines, and each goroutine POSTs the record's
    metadata to [/.cbfs/backup/restore/<path>] on the base URL.

    The embedding has three layers:
    - the data of the program and the behaviour of the Go packages it calls
      ([regexp], [net/url], [encoding/json], [os], [compress/gzip]), the
      latter collected in the record [Lib];
    - [restoreFile], written in a small monad that records the observable
      effects (log lines, stderr output, HTTP requests) and process exit;
    - the goroutines of [restoreCommand] as a scheduler-driven transition
      function [step] over an explicit [State]. *)

From Stdlib Require Import ZArith Lia Ascii String.
From stdpp Require Import base option list strings.

Local Open Scope string_scope.
Local Open Scope list_scope.
Local Open Scope Z_scope.

(** ** Data *)

(** Go's [error] values are only ever printed here: an error is its message. *)
Definition error : Type := string.

(** The result of a Go call returning [(T, error)]. *)
Inductive result (A : Type) : Type :=
| Ok (a : A)
| Err (e : error).
Arguments Ok {A} a.
Arguments Err {A} e.

(** [json.RawMessage]: the undecoded bytes of one JSON value. *)
Definition RawMessage : Type := string.

(** [type restoreWorkItem struct { Path string; Meta *json.RawMessage }];
    [Meta] is a pointer, [None] is [nil]. *)
Record restoreWorkItem : Type := mkItem {
  Path : string;
  Meta : option RawMessage;
}.

Module url.

(** [net/url.URL], the fields of the struct.  [restoreFile] assigns [Path]
    and leaves the others as [url.Parse] produced them. *)
Record URL : Type := mkURL {
  Scheme : string;
  Opaque : string;
  User : option string;
  Host : string;
  Path : string;
  RawQuery : string;
  Fragment : string;
}.

(** [u.Path = p] *)
Definition set_Path (u : URL) (p : string) : URL :=
  {| Scheme := Scheme u; Opaque := Opaque u; User := User u; Host := Host u;
     Path := p; RawQuery := RawQuery u; Fragment := Fragment u |}.

End url.

Module http.

(** The fields of [net/http.Response] that [restoreFile] reads. *)
Record Response : Type := mkResponse {
  StatusCode : Z;
  Status : string;
  Body : string;
}.

End http.

(** What one call [d.Decode(&ob)] yields before the stream is exhausted:
    a record ([err == nil]) or an error other than [io.EOF]. *)
Inductive DecodeResult : Type :=
| Rec (ob : restoreWorkItem)
| Bad (err : error).

(** The decompressed archive as the JSON decoder sees it: the results of the
    successive [Decode] calls; once the list is exhausted [Decode] returns
    [io.EOF]. *)
Definition Stream : Type := list DecodeResult.

(** The flags of the [restore] flag set after [restoreFlags.Parse(args)],
    and the remaining positional arguments. *)
Record Flags : Type := mkFlags {
  restoreForce : bool;
  restoreNoop : bool;
  restoreVerbose : bool;
  restorePat : string;
  restoreWorkers : Z;
  Args : list string;
}.

(** The Go packages the command calls into.  Their code is not part of the
    program; every statement below holds whatever they compute. *)
Record Lib : Type := mkLib {
  Regexp : Type;
  regexp_Compile : string -> result Regexp;
  MatchString : Regexp -> string -> bool;
  url_Parse : string -> result url.URL;
  url_String : url.URL -> string;
  (** [json.Marshal] at the one type [restoreFile] is called with,
      [*json.RawMessage]. *)
  json_Marshal : option RawMessage -> result string;
  File : Type;
  os_Open : string -> result File;
  (** [gzip.NewReader(f)] followed by [json.NewDecoder(gz)]: the header check
      may fail; otherwise the decoder's stream of results. *)
  gzip_NewReader : File -> result Stream;
}.

(** The network, as [http.Post(url, contentType, body)] sees it at one call. *)
Definition Network : Type := string -> string -> string -> result http.Response.

(** ** Observable effects *)

(** Lines written with [log.Printf], by format string. *)
Inductive LogLine : Type :=
| Restoring (path : string)                   (* "Restoring %v" *)
| RestoreError (status : string)              (* "restore error: %v" *)
| ErrorRestoring (path : string) (err : error) (* "Error restoring %v: %v" *)
| Restored (nfiles : Z) (elapsed : Z).        (* "Restored %v files in %v" *)

(** Lines written with [log.Fatalf], which then exits the process. *)
Inductive FatalLine : Type :=
| ErrorParsingURL (err : error)               (* "Error parsing URL: %v" *)
| ErrorExecutingPOST (u : url.URL) (err : error) (* "Error executing POST to %v - %v" *)
| ErrorParsingPattern (err : error)           (* "Error parsing match pattern: %v" *)
| FilenameRequired                            (* "Filename is required" *)
| ErrorOpening (err : error)                  (* "Error opening restore file: %v" *)
| ErrorUncompressing (err : error)            (* "Error uncompressing restore file: %v" *)
| ErrorReading (err : error).                 (* "Error reading backup file: %v" *)

Inductive Event : Type :=
| LogPrintf (l : LogLine)
| LogFatalf (l : FatalLine)
| StderrWrite (s : string)
| HttpPost (u : string) (contentType : string) (body : string).

(** The requests a trace contains, in order. *)
Definition posts (t : list Event) : list (string * string * string) :=
  omap (fun e => match e with
                 | HttpPost u c b => Some (u, c, b)
                 | _ => None
                 end) t.

(** The counts reported by the summary lines of a trace. *)
Definition summaries (t : list Event) : list Z :=
  omap (fun e => match e with
                 | LogPrintf (Restored n _) => Some n
                 | _ => None
                 end) t.

(** The [log.Fatalf] lines of a trace. *)
Definition fatals (t : list Event) : list FatalLine :=
  omap (fun e => match e with LogFatalf l => Some l | _ => None end) t.

(** The paths of the [Restoring] lines of a trace, in order: one per call of
    [restoreFile]. *)
Definition restored (t : list Event) : list string :=
  omap (fun e => match e with
                 | LogPrintf (Restoring p) => Some p
                 | _ => None
                 end) t.

#[global] Arguments restored : simpl never.
#[global] Arguments posts : simpl never.
#[global] Arguments summaries : simpl never.
#[global] Arguments fatals : simpl never.

(** ** The effect monad

    A computation yields the events it performed, in order, and either a
    value or nothing when [log.Fatalf] ended the process on the way. *)
Definition M (A : Type) : Type := list Event * option A.

#[global] Instance M_ret : MRet M := fun A a => ([], Some a).

#[global] Instance M_bind : MBind M := fun A B k m =>
  match m with
  | (t, None) => (t, None)
  | (t, Some a) => let '(t', r) := k a in (t ++ t', r)
  end.

Definition log_Printf (l : LogLine) : M unit := ([LogPrintf l], Some tt).
Definition log_Fatalf {A} (l : FatalLine) : M A := ([LogFatalf l], None).
Definition stderr (s : string) : M unit := ([StderrWrite s], Some tt).
Definition http_Post (net : Network) (u contentType body : string)
  : M (result http.Response) :=
  ([HttpPost u contentType body], Some (net u contentType body)).

(** [fmt.Sprintf("/.cbfs/backup/restore/%v", path)] *)
Definition restorePath (path : string) : string :=
  "/.cbfs/backup/restore/" +:+ path.

(** [fmt.Errorf("HTTP Error restoring %v: %v", path, res.Status)] *)
Definition httpError (path status : string) : error :=
  "HTTP Error restoring " +:+ path +:+ ": " +:+ status.

Definition newline : string := String (Ascii.ascii_of_nat 10) EmptyString.

Section Restore.

Variable L : Lib.
Variable F : Flags.

(** ** [restoreFile]

    The returned [error] is [None] for [nil]. *)
Definition restoreFile (net : Network) (base path : string)
    (data : option RawMessage) : M (option error) :=
  log_Printf (Restoring path);;
  if restoreNoop F then mret None else
  u ← match url_Parse L base with
      | Ok u => mret u
      | Err err => log_Fatalf (ErrorParsingURL err)
      end;
  match json_Marshal L data with
  | Err err => mret (Some err)
  | Ok fileMetaBytes =>
    let u := url.set_Path u (restorePath path) in
    r ← http_Post net (url_String L u) "application/json" fileMetaBytes;
    res ← match r with
          | Ok res => mret res
          | Err err => log_Fatalf (ErrorExecutingPOST u err)
          end;
    if negb (http.StatusCode res =? 201) then
      log_Printf (RestoreError (http.Status res));;
      stderr (http.Body res);;
      stderr newline;;
      mret (Some (httpError path (http.Status res)))
    else mret None
  end.

(** ** [restoreCommand]: start-up

    Everything between the return of [restoreFlags.Parse(args)], whose
    outcome is [F], and the start of the goroutines; [restoreFlags_Parse]
    below has the call of [Parse] itself.  [now] is the reading of
    [time.Now()].  Note that the base URL [ustr] is not looked at here. *)
Definition restoreCommand_init (now : Z) : M (Regexp L * Z * Stream) :=
  regex ← match regexp_Compile L (restorePat F) with
          | Ok regex => mret regex
          | Err err => log_Fatalf (ErrorParsingPattern err)
          end;
  fn ← match Args F with
       | fn :: _ => mret fn
       | [] => log_Fatalf FilenameRequired
       end;
  let start := now in
  f ← match os_Open L fn with
      | Ok f => mret f
      | Err err => log_Fatalf (ErrorOpening err)
      end;
  gz ← match gzip_NewReader L f with
       | Ok gz => mret gz
       | Err err => log_Fatalf (ErrorUncompressing err)
       end;
  mret (regex, start, gz).

(** ** [restoreCommand]: the goroutines

    The main goroutine is at one of four places. *)
Inductive MainPC : Type :=
| Scanning (d : Stream)                        (* about to call d.Decode(&ob) *)
| Sending (ob : restoreWorkItem) (d : Stream)  (* blocked in ch <- ob *)
| Waiting                                      (* close(ch) done, in wg.Wait() *)
| Returned.                                    (* summary logged *)

(** A [restoreWorker] goroutine is at one of three places. *)
Inductive WorkerPC : Type :=
| WRecv                                        (* blocked in range ch *)
| WRestore (ob : restoreWorkItem)              (* about to call restoreFile *)
| WDone.                                       (* channel closed, wg.Done() run *)

(** [workers] are the goroutines started by the loop over [*restoreWorkers],
    [out] is the trace of the process so far.  [sent] is a history variable:
    the items whose send [ch <- ob] has completed, in order.  [exited] is set
    when [log.Fatalf] is called; the model follows the process no further. *)
Record State : Type := mkState {
  main : MainPC;
  nfiles : Z;
  workers : list WorkerPC;
  sent : list restoreWorkItem;
  out : list Event;
  exited : bool;
}.

(** [nfiles++] on Go's 64-bit [int]. *)
Definition int_incr (n : Z) : Z := (n + 1 + 2 ^ 63) mod 2 ^ 64 - 2 ^ 63.

(** The state once [*restoreWorkers] goroutines are started and
    [json.NewDecoder(gz)] is set up. *)
Definition initState (gz : Stream) : State :=
  {| main := Scanning gz; nfiles := 0;
     workers := replicate (Z.to_nat (restoreWorkers F)) WRecv;
     sent := []; out := []; exited := false |}.

Definition all_done (ws : list WorkerPC) : bool :=
  forallb (fun w => match w with WDone => true | _ => false end) ws.

(** The scheduler picks a goroutine; it also supplies what the outside world
    answers if the step asks: the clock, or the network. *)
Inductive Choice : Type :=
| SchedMain (now : Z)
| SchedWorker (i : nat) (net : Network).

Section Running.

Variable regex : Regexp L.
Variable ustr : string.
Variable start : Z.

(** One step of the main goroutine: an iteration of [for !done], up to the
    point where it blocks in the send; then [close(ch); wg.Wait()] and the
    summary. *)
Definition restoreCommand_step (now : Z) (st : State) : option State :=
  match main st with
  | Scanning (Rec ob :: d) =>
      if MatchString L regex (Path ob) then
        Some {| main := Sending ob d; nfiles := int_incr (nfiles st);
                workers := workers st; sent := sent st; out := out st;
                exited := exited st |}
      else
        Some {| main := Scanning d; nfiles := nfiles st;
                workers := workers st; sent := sent st; out := out st;
                exited := exited st |}
  | Scanning [] =>
      Some {| main := Waiting; nfiles := nfiles st;
              workers := workers st; sent := sent st; out := out st;
              exited := exited st |}
  | Scanning (Bad err :: d) =>
      Some {| main := main st; nfiles := nfiles st;
              workers := workers st; sent := sent st;
              out := out st ++ [LogFatalf (ErrorReading err)];
              exited := true |}
  | Sending _ _ => None
  | Waiting =>
      if all_done (workers st) then
        Some {| main := Returned; nfiles := nfiles st;
                workers := workers st; sent := sent st;
                out := out st ++ [LogPrintf (Restored (nfiles st) (now - start))];
                exited := exited st |}
      else None
  | Returned => None
  end.

(** One step of worker [i]: receive from the channel, or return from the
    loop when the channel is closed, or run the loop body on the item
    received.  The call of [restoreFile] is one step: its events enter the
    trace together, and [net] is what the network answers to its request.
    A [log.Fatalf] is one step as well: the line is logged and [exited] is
    set at once.  What the other goroutines still log or post between the
    fatal line and the return of [os.Exit] is not part of the model. *)
Definition restoreWorker_step (i : nat) (net : Network) (st : State) : option State :=
  match workers st !! i with
  | Some WRecv =>
      match main st with
      | Sending ob d =>
          Some {| main := Scanning d; nfiles := nfiles st;
                  workers := <[i := WRestore ob]> (workers st);
                  sent := sent st ++ [ob]; out := out st; exited := exited st |}
      | Waiting | Returned =>
          Some {| main := main st; nfiles := nfiles st;
                  workers := <[i := WDone]> (workers st);
                  sent := sent st; out := out st; exited := exited st |}
      | Scanning _ => None
      end
  | Some (WRestore ob) =>
      match restoreFile net ustr (Path ob) (Meta ob) with
      | (t, Some None) =>
          Some {| main := main st; nfiles := nfiles st;
                  workers := <[i := WRecv]> (workers st);
                  sent := sent st; out := out st ++ t; exited := exited st |}
      | (t, Some (Some err)) =>
          Some {| main := main st; nfiles := nfiles st;
                  workers := <[i := WRecv]> (workers st);
                  sent := sent st;
                  out := out st ++ t ++ [LogPrintf (ErrorRestoring (Path ob) err)];
                  exited := exited st |}
      | (t, None) =>
          Some {| main := main st; nfiles := nfiles st;
                  workers := workers st; sent := sent st;
                  out := out st ++ t; exited := true |}
      end
  | Some WDone | None => None
  end.

(** [None]: the chosen goroutine cannot run (it is blocked, has returned, or
    the process is over). *)
Definition step (c : Choice) (st : State) : option State :=
  if exited st then None else
  match c with
  | SchedMain now => restoreCommand_step now st
  | SchedWorker i net => restoreWorker_step i net st
  end.

(** A schedule is run choice by choice; a choice that cannot run is skipped. *)
Fixpoint run (sched : list Choice) (st : State) : State :=
  match sched with
  | [] => st
  | c :: sched => run sched (default st (step c st))
  end.

(** *** Notions the statements use *)

(** The filter of the scan loop, and the records it lets through. *)
Definition matches (ob : restoreWorkItem) : bool := MatchString L regex (Path ob).

Definition matching (items : list restoreWorkItem) : list restoreWorkItem :=
  List.filter matches items.

(** The value of [nfiles] after [n] increments from zero. *)
Definition counted (n : nat) : Z := Nat.iter n int_incr 0.

(** What the decoder has not been asked for yet. *)
Definition unread (m : MainPC) : Stream :=
  match m with
  | Scanning d | Sending _ d => d
  | Waiting | Returned => []
  end.

(** The item the main goroutine is blocked sending, if any. *)
Definition pending (m : MainPC) : list restoreWorkItem :=
  match m with
  | Sending ob _ => [ob]
  | _ => []
  end.

(** [close(ch)] has run. *)
Definition closed (m : MainPC) : bool :=
  match m with
  | Waiting | Returned => true
  | _ => false
  end.

(** The items workers hold and have not finished with. *)
Definition in_flight (ws : list WorkerPC) : list restoreWorkItem :=
  omap (fun w => match w with WRestore ob => Some ob | _ => None end) ws.

(** The item a worker holds, if any. *)
Definition flight (w : WorkerPC) : list restoreWorkItem :=
  match w with
  | WRestore ob => [ob]
  | _ => []
  end.

(** The request a call of [restoreFile] for [ob] makes, if it gets as far as
    [http.Post]: none in a dry run, none when the base does not parse, none
    when the metadata does not serialize. *)
Definition requests (ob : restoreWorkItem) : list (string * string * string) :=
  if restoreNoop F then [] else
  match url_Parse L ustr, json_Marshal L (Meta ob) with
  | Ok u, Ok body =>
      [(url_String L (url.set_Path u (restorePath (Path ob))),
        "application/json", body)]
  | _, _ => []
  end.

(** No goroutine can run. *)
Definition terminal (st : State) : Prop := forall c, step c st = None.

(** A bound on the number of steps left. *)
Definition main_measure (m : MainPC) : nat :=
  match m with
  | Scanning d => 3 * length d + 2
  | Sending _ d => 3 * length d + 4
  | Waiting => 1
  | Returned => 0
  end.

Definition worker_measure (w : WorkerPC) : nat :=
  match w with
  | WRecv => 1
  | WRestore _ => 2
  | WDone => 0
  end.

Definition measure (st : State) : nat :=
  if exited st then 0
  else S (main_measure (main st) + sum_list_with worker_measure (workers st)).

(** A scheduler: the first goroutine that can run, the main one first, with
    the same answer [net] from the network and [now] from the clock throughout;
    [schedule] is the list of its choices. *)
Definition candidates (net : Network) (now : Z) (st : State) : list Choice :=
  SchedMain now :: ((fun i => SchedWorker i net) <$> seq 0 (length (workers st))).

Definition can_run (st : State) (c : Choice) : bool :=
  match step c st with Some _ => true | None => false end.

Definition pick (net : Network) (now : Z) (st : State) : option Choice :=
  List.find (can_run st) (candidates net now st).

Fixpoint schedule (net : Network) (now : Z) (fuel : nat) (st : State)
  : list Choice :=
  match fuel with
  | O => []
  | S fuel =>
      match pick net now st with
      | None => []
      | Some c => c :: schedule net now fuel (default st (step c st))
      end
  end.

(** What holds of every state a schedule leads to from [initState gz]. *)
Record Inv (gz : Stream) (st : State) : Prop := mkInv {
  inv_scan : exists pre,
    gz = (Rec <$> pre) ++ unread (main st) /\
    matching pre = sent st ++ pending (main st) /\
    nfiles st = counted (length (matching pre));
  inv_workers : length (workers st) = Z.to_nat (restoreWorkers F);
  inv_open : closed (main st) = false -> WDone ∉ workers st;
  inv_returned : main st = Returned -> all_done (workers st) = true;
  inv_flight : in_flight (workers st) ⊆ sent st;
  inv_summary : summaries (out st) =
    match main st with
    | Returned => [nfiles st]
    | _ => []
    end;
  inv_fatal : fatals (out st) = [] <-> exited st = false;
  inv_running : main st = Returned -> exited st = false;
}.

End Running.

(** The whole command under a schedule: [None] when start-up failed. *)
Definition restoreCommand (ustr : string) (now : Z) (sched : list Choice)
  : M State :=
  '(regex, start, gz) ← restoreCommand_init now;
  let st := run regex ustr start sched (initState gz) in
  (out st, Some st).

End Restore.



(** A network on which every request gets the response [res]. *)
Definition answering (res : http.Response) : Network := fun _ _ _ => Ok res.

(** The goroutine a choice runs is a worker only with the network [net]. *)
Definition asks (net : Network) (c : Choice) : Prop :=
  match c with
  | SchedMain _ => True
  | SchedWorker _ net' => net' = net
  end.

(** ** A concrete setting

    Stand-ins for the Go packages, precise enough on the inputs used below to
    run the model: the end-to-end and failure-isolation scenarios of the
    specification, and the inputs at which statements are evaluated. *)

Module Scenario.

(** [regexp]: a pattern [^literal] matches the strings starting with the
    literal, any other pattern here matches everything ([.*] is the flag's
    default); an unbalanced parenthesis does not compile. *)
Definition compile (pat : string) : result string :=
  if String.eqb pat "(" then Err "error parsing regexp: missing closing ): `(`"
  else Ok pat.

Definition matchString (re s : string) : bool :=
  match re with
  | String "^"%char lit => String.prefix lit s
  | _ => true
  end.

(** [net/url]: [http://host/path] is split at the first slash after the
    host; a string starting with a colon has no scheme and is rejected. *)
Definition parse (s : string) : result url.URL :=
  if String.prefix ":" s then Err ("parse " +:+ s +:+ ": missing protocol scheme")
  else if String.prefix "http://" s then
    let rest := substring 7 (String.length s - 7) s in
    match index 0 "/" rest with
    | Some i =>
        Ok (url.mkURL "http" "" None (substring 0 i rest)
              (substring i (String.length rest - i) rest) "" "")
    | None => Ok (url.mkURL "http" "" None rest "" "" "")
    end
  else Ok (url.mkURL "" "" None "" s "" "").

(** [URL.String], for paths in which no character needs escaping. *)
Definition urlString (u : url.URL) : string :=
  (if String.eqb (url.Scheme u) "" then "" else url.Scheme u +:+ ":") +:+
  (if String.eqb (url.Scheme u) "" && String.eqb (url.Host u) "" then ""
   else "//" +:+ url.Host u) +:+
  url.Path u +:+
  (if String.eqb (url.RawQuery u) "" then "" else "?" +:+ url.RawQuery u) +:+
  (if String.eqb (url.Fragment u) "" then "" else "#" +:+ url.Fragment u).

(** [json.Marshal] of a [*json.RawMessage] holding compact JSON. *)
Definition marshal (data : option RawMessage) : result string :=
  match data with
  | Some m => Ok m
  | None => Ok "null"
  end.

(** [json.Marshal] of a [*json.RawMessage] as the library does it: the
    value is re-emitted in compact form, that is without the blanks between
    its tokens, and a nil pointer gives [null].  [compact] drops the blanks
    outside string literals. *)
Fixpoint compact_from (in_string escaped : bool) (s : string) : string :=
  match s with
  | EmptyString => EmptyString
  | String c s =>
      if in_string then
        String c (compact_from
                    (if escaped then true else negb (Ascii.eqb c (ascii_of_nat 34)))
                    (if escaped then false else Ascii.eqb c (ascii_of_nat 92)) s)
      else if Ascii.eqb c " " || Ascii.eqb c (ascii_of_nat 9) ||
              Ascii.eqb c (ascii_of_nat 10) || Ascii.eqb c (ascii_of_nat 13)
      then compact_from false false s
      else String c (compact_from (Ascii.eqb c (ascii_of_nat 34)) false s)
  end.

Definition compact (s : string) : string := compact_from false false s.

Definition remarshal (data : option RawMessage) : result string :=
  match data with
  | Some m => Ok (compact m)
  | None => Ok "null"
  end.

(** A file system with one archive, [backup.gz], holding [archive]. *)
Definition lib (archive : Stream) : Lib :=
  {| Regexp := string; regexp_Compile := compile; MatchString := matchString;
     url_Parse := parse; url_String := urlString; json_Marshal := marshal;
     File := Stream;
     os_Open := fun fn =>
       if String.eqb fn "backup.gz" then Ok archive
       else Err ("open " +:+ fn +:+ ": no such file or directory");
     gzip_NewReader := fun f => Ok f |}.

(** The same packages with [remarshal] for [json.Marshal]. *)
Definition relib (archive : Stream) : Lib :=
  {| Regexp := string; regexp_Compile := compile; MatchString := matchString;
     url_Parse := parse; url_String := urlString; json_Marshal := remarshal;
     File := Stream;
     os_Open := fun fn =>
       if String.eqb fn "backup.gz" then Ok archive
       else Err ("open " +:+ fn +:+ ": no such file or directory");
     gzip_NewReader := fun f => Ok f |}.

(** A record whose metadata was written with a blank, and one without
    metadata. *)
Definition spaced : restoreWorkItem := mkItem "a/1.txt" (Some "[1, 2]").
Definition bare : restoreWorkItem := mkItem "a/1.txt" None.

Definition meta1 : RawMessage := "[1]".
Definition meta2 : RawMessage := "[2]".
Definition meta3 : RawMessage := "[3]".

Definition items : list restoreWorkItem :=
  [ mkItem "a/1.txt" (Some meta1);
    mkItem "b/2.txt" (Some meta2);
    mkItem "a/3.txt" (Some meta3) ].

(** The records before and after the damaged one in [damaged] below. *)
Definition before : list restoreWorkItem := [ mkItem "a/1.txt" (Some meta1) ].
Definition after : Stream := [ Rec (mkItem "a/3.txt" (Some meta3)) ].
Definition decode_error : error :=
  "invalid character 'x' looking for beginning of value".

Definition archive : Stream := Rec <$> items.

(** The same archive with its second record damaged. *)
Definition damaged : Stream := (Rec <$> before) ++ Bad decode_error :: after.

(** [restore -match ^a/ -workers 2 backup.gz], and with [-n]. *)
Definition flags : Flags :=
  {| restoreForce := false; restoreNoop := false; restoreVerbose := false;
     restorePat := "^a/"; restoreWorkers := 2; Args := ["backup.gz"] |}.

Definition dry : Flags :=
  {| restoreForce := false; restoreNoop := true; restoreVerbose := false;
     restorePat := "^a/"; restoreWorkers := 2; Args := ["backup.gz"] |}.

(** [restore -match ^c/ backup.gz]: no record of [archive] matches. *)
Definition nothing : Flags :=
  {| restoreForce := false; restoreNoop := false; restoreVerbose := false;
     restorePat := "^c/"; restoreWorkers := 4; Args := ["backup.gz"] |}.

Definition base : string := "http://cbfs:8484".
Definition nested : string := "http://cbfs:8484/store".
Definition malformed : string := ":8484".

Definition created : http.Response := http.mkResponse 201 "201 Created" "".
Definition failure : http.Response :=
  http.mkResponse 500 "500 Internal Server Error" "disk full".

(** Three networks: every POST is accepted; the POST for [a/1.txt] is
    answered 500; the endpoint cannot be reached. *)
Definition accepting : Network := fun _ _ _ => Ok created.

Definition failing : Network := fun u _ _ =>
  if String.eqb u "http://cbfs:8484/.cbfs/backup/restore/a/1.txt"
  then Ok failure else Ok created.

Definition unreachable : Network := fun _ _ _ =>
  Err "dial tcp: connection refused".

Definition re : string := "^a/".

Definition item1 : restoreWorkItem := mkItem "a/1.txt" (Some meta1).
Definition item3 : restoreWorkItem := mkItem "a/3.txt" (Some meta3).

(** The main goroutine has read the first record and a worker has received
    it: the state in which worker 0 is about to call [restoreFile]. *)
Definition handed_over (net : Network) : list Choice :=
  [SchedMain 1; SchedWorker 0 net].

(** The state [handed_over] leads to, on [archive] with [flags] and [base]. *)
Definition posting (net : Network) : State :=
  run (lib archive) flags re base 0 (handed_over net) (initState flags archive).

(** [base] as [url.Parse] returns it, and the URL of the request for
    [a/1.txt]. *)
Definition cbfs : url.URL := url.mkURL "http" "" None "cbfs:8484" "" "" "".
Definition target1 : string := "http://cbfs:8484/.cbfs/backup/restore/a/1.txt".

(** What [restoreFile] does for [a/1.txt] when the endpoint cannot be
    reached, and when it answers 500. *)
Definition refused : list Event :=
  [LogPrintf (Restoring "a/1.txt");
   HttpPost target1 "application/json" meta1;
   LogFatalf (ErrorExecutingPOST (url.set_Path cbfs (restorePath "a/1.txt"))
                "dial tcp: connection refused")].

Definition rejected : list Event :=
  [LogPrintf (Restoring "a/1.txt");
   HttpPost target1 "application/json" meta1;
   LogPrintf (RestoreError "500 Internal Server Error");
   StderrWrite "disk full"; StderrWrite newline].

Definition rejection : error :=
  "HTTP Error restoring a/1.txt: 500 Internal Server Error".

(** [archive] with [flags] and [base] run to the end under [schedule], the
    clock reading [7]. *)
Definition to_the_end (net : Network) : list Choice :=
  schedule (lib archive) flags re base 0 net 7
    (measure (initState flags archive)) (initState flags archive).

Definition finished (net : Network) : State :=
  run (lib archive) flags re base 0 (to_the_end net) (initState flags archive).

(** A dry run of [archive] against the malformed base, to the end. *)
Definition rehearsal : list Choice :=
  schedule (lib archive) dry re malformed 0 unreachable 7
    (measure (initState dry archive)) (initState dry archive).

Definition rehearsed : State :=
  run (lib archive) dry re malformed 0 rehearsal (initState dry archive).

(** The run on the damaged archive, to the end. *)
Definition aborted : State :=
  run (lib damaged) flags re base 0
    (schedule (lib damaged) flags re base 0 accepting 7
       (measure (initState flags damaged)) (initState flags damaged))
    (initState flags damaged).

(** The command run to the end under [schedule]; the clock reads [0] at
    start-up and [7] afterwards. *)
Definition complete (L : Lib) (F : Flags) (ustr : string) (net : Network)
  : M State :=
  '(regex, start, gz) ← restoreCommand_init L F 0;
  let st := initState F gz in
  let st := run L F regex ustr start
              (schedule L F regex ustr start net 7 (measure st) st) st in
  (out st, Some st).

(** [restore -match ^a/ -workers 1 backup.gz] and the same with
    [-workers 0]. *)
Definition single : Flags :=
  {| restoreForce := false; restoreNoop := false; restoreVerbose := false;
     restorePat := "^a/"; restoreWorkers := 1; Args := ["backup.gz"] |}.

Definition idle : Flags :=
  {| restoreForce := false; restoreNoop := false; restoreVerbose := false;
     restorePat := "^a/"; restoreWorkers := 0; Args := ["backup.gz"] |}.

(** [archive] restored by one worker, the first request answered 500, to the
    end. *)
Definition one_by_one : list Choice :=
  schedule (lib archive) single re base 0 failing 7
    (measure (initState single archive)) (initState single archive).

(** Three moves of the main goroutine, and of no other. *)
Definition alone : list Choice := [SchedMain 1; SchedMain 2; SchedMain 3].

(** The state the command ends in, if start-up succeeded. *)
Definition outcome (F : Flags) (ustr : string) (net : Network) : option State :=
  (complete (lib archive) F ustr net).2.

End Scenario.

(** * Properties *)

(** ** [restoreFile], outcome by outcome *)

Section RestoreFileFacts.

Variable L : Lib.
Variable F : Flags.
Variable net : Network.
Variables base path : string.
Variable data : option RawMessage.

Lemma restoreFile_noop :
  restoreNoop F = true ->
  restoreFile L F net base path data = ([LogPrintf (Restoring path)], Some None).
Proof. intros H. unfold restoreFile. rewrite H. reflexivity. Qed.

Lemma restoreFile_bad_base err :
  restoreNoop F = false ->
  url_Parse L base = Err err ->
  restoreFile L F net base path data =
    ([LogPrintf (Restoring path); LogFatalf (ErrorParsingURL err)], None).
Proof. intros H1 H2. unfold restoreFile. rewrite H1, H2. reflexivity. Qed.

Lemma restoreFile_bad_meta u err :
  restoreNoop F = false ->
  url_Parse L base = Ok u ->
  json_Marshal L data = Err err ->
  restoreFile L F net base path data =
    ([LogPrintf (Restoring path)], Some (Some err)).
Proof. intros H1 H2 H3. unfold restoreFile. rewrite H1, H2, H3. reflexivity. Qed.

Section Posted.

Variable u : url.URL.
Variable body : string.
Hypothesis Hnoop : restoreNoop F = false.
Hypothesis Hbase : url_Parse L base = Ok u.
Hypothesis Hmeta : json_Marshal L data = Ok body.

Let target : url.URL := url.set_Path u (restorePath path).
Let request : Event := HttpPost (url_String L target) "application/json" body.

Lemma restoreFile_post_failed err :
  net (url_String L target) "application/json" body = Err err ->
  restoreFile L F net base path data =
    ([LogPrintf (Restoring path); request;
      LogFatalf (ErrorExecutingPOST target err)], None).
Proof.
  intros H. unfold restoreFile. rewrite Hnoop, Hbase, Hmeta.
  cbn. fold target. rewrite H. reflexivity.
Qed.

Lemma restoreFile_created res :
  net (url_String L target) "application/json" body = Ok res ->
  http.StatusCode res = 201 ->
  restoreFile L F net base path data =
    ([LogPrintf (Restoring path); request], Some None).
Proof.
  intros H Hc. unfold restoreFile. rewrite Hnoop, Hbase, Hmeta.
  cbn. fold target. rewrite H. cbn. rewrite Hc. reflexivity.
Qed.

Lemma restoreFile_refused res :
  net (url_String L target) "application/json" body = Ok res ->
  http.StatusCode res <> 201 ->
  restoreFile L F net base path data =
    ([LogPrintf (Restoring path); request;
      LogPrintf (RestoreError (http.Status res));
      StderrWrite (http.Body res); StderrWrite newline],
     Some (Some (httpError path (http.Status res)))).
Proof.
  intros H Hc. unfold restoreFile. rewrite Hnoop, Hbase, Hmeta.
  cbn. fold target. rewrite H. cbn.
  destruct (Z.eqb_spec (http.StatusCode res) 201) as [|_]; [contradiction|].
  reflexivity.
Qed.

End Posted.

End RestoreFileFacts.

(** ** What a call of [restoreFile] can and cannot log *)

Section RestoreFileTraces.

Variable L : Lib.
Variable F : Flags.

Ltac restoreFile_cases net base path data :=
  unfold restoreFile;
  destruct (restoreNoop F); [try done|];
  destruct (url_Parse L base) as [u|?]; [|try done];
  destruct (json_Marshal L data) as [b|?]; [|try done];
  cbn;
  destruct (net (url_String L (url.set_Path u (restorePath path)))
              "application/json" b) as [res|?]; [|try done];
  cbn; destruct (http.StatusCode res =? 201); try done.

Lemma restoreFile_summaries net base path data :
  summaries (restoreFile L F net base path data).1 = [].
Proof. restoreFile_cases net base path data. Qed.

Lemma restoreFile_fatals net base path data :
  fatals (restoreFile L F net base path data).1 = [] <->
  (restoreFile L F net base path data).2 <> None.
Proof. restoreFile_cases net base path data. Qed.

Lemma restoreFile_posts_noop net base path data :
  restoreNoop F = true ->
  posts (restoreFile L F net base path data).1 = [].
Proof. intros H. by rewrite restoreFile_noop. Qed.

Lemma restoreFile_posts_bad_base net base path data err :
  url_Parse L base = Err err ->
  posts (restoreFile L F net base path data).1 = [].
Proof.
  intros H. destruct (restoreNoop F) eqn:Hn.
  - by rewrite restoreFile_noop.
  - by rewrite (restoreFile_bad_base _ _ _ _ _ _ err).
Qed.

End RestoreFileTraces.

(** ** Lists updated in place *)

Section ListFacts.

Context {A : Type}.
Implicit Types (l : list A) (i : nat) (x y : A).

Lemma elem_of_insert_inv l i x y : y ∈ <[i:=x]> l -> y = x \/ y ∈ l.
Proof.
  revert i. induction l as [|a l IH]; intros [|i]; cbn; try by auto.
  - rewrite !elem_of_cons. tauto.
  - rewrite !elem_of_cons. intros [->|H]; [tauto|].
    destruct (IH _ H); tauto.
Qed.

Lemma sum_list_with_insert (f : A -> nat) l i x y :
  l !! i = Some x ->
  (sum_list_with f (<[i:=y]> l) + f x = sum_list_with f l + f y)%nat.
Proof.
  revert i. induction l as [|a l IH]; intros [|i]; cbn; try done.
  - intros [= ->]. lia.
  - intros H. rewrite <- !Nat.add_assoc. f_equal. by apply IH.
Qed.

End ListFacts.

Lemma all_done_spec ws : all_done ws = true <-> forall w, w ∈ ws -> w = WDone.
Proof.
  unfold all_done. induction ws as [|w ws IH]; cbn.
  - split; [|done]. intros _ w Hw. by apply elem_of_nil in Hw.
  - rewrite andb_true_iff, IH. split.
    + intros [Hw Hws] w'. rewrite elem_of_cons. intros [->|H]; [|by auto].
      by destruct w.
    + intros H. split.
      * rewrite (H w); [done|]. by left.
      * intros w' Hw'. apply H. by right.
Qed.

Lemma all_done_false ws :
  all_done ws = false -> exists i w, ws !! i = Some w /\ w <> WDone.
Proof.
  unfold all_done. induction ws as [|w ws IH]; cbn; [done|].
  destruct w; cbn.
  - intros _. by exists 0%nat, WRecv.
  - intros _. by exists 0%nat, (WRestore ob).
  - intros H. destruct (IH H) as (i & w & Hi & Hne). by exists (S i), w.
Qed.

Lemma elem_of_in_flight ws ob : ob ∈ in_flight ws <-> WRestore ob ∈ ws.
Proof.
  unfold in_flight. rewrite list_elem_of_omap. split.
  - intros (w & Hw & Heq). destruct w; by simplify_eq.
  - intros H. by exists (WRestore ob).
Qed.

Lemma counted_S n : counted (S n) = int_incr (counted n).
Proof. reflexivity. Qed.

Lemma counted_small n : Z.of_nat n < 2 ^ 63 -> counted n = Z.of_nat n.
Proof.
  change (2 ^ 63) with 9223372036854775808.
  induction n as [|n IH]; [done|]. intros Hn.
  rewrite counted_S, IH by lia. unfold int_incr.
  change (2 ^ 63) with 9223372036854775808.
  change (2 ^ 64) with 18446744073709551616.
  rewrite Z.mod_small; lia.
Qed.

(** ** The invariant of the goroutines *)

Section RunFacts.

Variable L : Lib.
Variable F : Flags.
Variable regex : Regexp L.
Variable ustr : string.
Variable start : Z.

Abbreviation step := (step L F regex ustr start).
Abbreviation run := (run L F regex ustr start).
Abbreviation matching := (matching L regex).
Abbreviation Inv := (Inv L F regex).

Lemma matching_snoc pre ob :
  matching (pre ++ [ob]) =
  matching pre ++ (if matches L regex ob then [ob] else []).
Proof. unfold matching. rewrite List.filter_app. reflexivity. Qed.

Lemma summaries_app t1 t2 : summaries (t1 ++ t2) = summaries t1 ++ summaries t2.
Proof. apply omap_app. Qed.

Lemma fatals_app t1 t2 : fatals (t1 ++ t2) = fatals t1 ++ fatals t2.
Proof. apply omap_app. Qed.

Lemma posts_app t1 t2 : posts (t1 ++ t2) = posts t1 ++ posts t2.
Proof. apply omap_app. Qed.

Lemma Inv_init gz : Inv gz (initState F gz).
Proof.
  split; cbn.
  - exists []. by rewrite app_nil_l.
  - apply length_replicate.
  - intros _ H. by apply elem_of_replicate_inv in H.
  - done.
  - intros ob. rewrite elem_of_in_flight. intros H.
    by apply elem_of_replicate_inv in H.
  - done.
  - done.
  - done.
Qed.

Lemma Inv_restoreCommand_step gz now st st' :
  Inv gz st -> exited st = false ->
  restoreCommand_step L regex start now st = Some st' -> Inv gz st'.
Proof.
  intros [(pre & Hgz & Hsent & Hn) Hlen Hopen Hret Hfl Hsum Hfat _] Hex.
  unfold restoreCommand_step. destruct (main st) as [[|[ob|err] d]|ob d| |] eqn:Hm; try done.
  - intros [= <-]. split; cbn; try done. by exists pre.
  - cbn in *. rewrite app_nil_r in Hsent.
    destruct (MatchString L regex (Path ob)) eqn:Hmatch;
      intros [= <-]; split; cbn; try done; try auto.
    + exists (pre ++ [ob]). rewrite matching_snoc. unfold matches.
      rewrite Hmatch, fmap_app, <- app_assoc, length_app, Nat.add_1_r.
      by rewrite counted_S, <- Hn, Hsent.
    + exists (pre ++ [ob]). rewrite matching_snoc. unfold matches.
      by rewrite Hmatch, fmap_app, <- app_assoc, !app_nil_r.
  - intros [= <-]. split; cbn; rewrite ?Hm; try done.
    + by exists pre.
    + by rewrite summaries_app, Hsum.
    + rewrite fatals_app. cbn. split; [|done].
      intros H. by apply app_eq_nil in H as [_ ?].
  - destruct (all_done (workers st)) eqn:Hall; [|done].
    intros [= <-]. split; cbn; try done.
    + by exists pre.
    + by rewrite summaries_app, Hsum.
    + by rewrite fatals_app, app_nil_r.
Qed.

Lemma in_flight_insert ws i w ob :
  ob ∈ in_flight (<[i:=w]> ws) -> w = WRestore ob \/ ob ∈ in_flight ws.
Proof.
  rewrite !elem_of_in_flight. intros H.
  apply elem_of_insert_inv in H as [H|H]; auto.
Qed.

Lemma Inv_restoreWorker_step gz i net st st' :
  Inv gz st -> exited st = false ->
  restoreWorker_step L F ustr i net st = Some st' -> Inv gz st'.
Proof.
  intros [(pre & Hgz & Hsent & Hn) Hlen Hopen Hret Hfl Hsum Hfat _] Hex.
  unfold restoreWorker_step. destruct (workers st !! i) as [[|ob|]|] eqn:Hi; try done.
  - (* receive, or leave the loop *)
    destruct (main st) as [d|ob d| |] eqn:Hm; try done;
      intros [= <-]; split; cbn; rewrite ?length_insert; try done.
    + exists pre. cbn in *. by rewrite app_nil_r.
    + intros _ H. apply elem_of_insert_inv in H as [H|H]; [done|].
      by apply Hopen.
    + intros x Hx. apply in_flight_insert in Hx as [[= ->]|Hx].
      * apply elem_of_app. right. by left.
      * apply elem_of_app. left. by apply Hfl.
    + by exists pre.
    + intros x Hx. apply in_flight_insert in Hx as [?|Hx]; [done|]. by apply Hfl.
    + by exists pre.
    + intros _. apply all_done_spec. intros w Hw.
      apply elem_of_insert_inv in Hw as [?|Hw]; [done|].
      by apply (proj1 (all_done_spec _) (Hret eq_refl)).
    + intros x Hx. apply in_flight_insert in Hx as [?|Hx]; [done|]. by apply Hfl.
  - (* the loop body *)
    pose proof (restoreFile_summaries L F net ustr (Path ob) (Meta ob)) as Hs.
    pose proof (restoreFile_fatals L F net ustr (Path ob) (Meta ob)) as Hf.
    assert (main st <> Returned) as Hnr.
    { intros Hm. specialize (Hret Hm).
      rewrite all_done_spec in Hret.
      by specialize (Hret _ (list_elem_of_lookup_2 _ _ _ Hi)). }
    destruct (restoreFile L F net ustr (Path ob) (Meta ob)) as [t [[err|]|]];
      cbn in Hs, Hf; intros [= <-]; split; cbn; rewrite ?length_insert; try done.
    + by exists pre.
    + intros Hc H. apply elem_of_insert_inv in H as [H|H]; [done|].
      by apply Hopen.
    + intros x Hx. apply in_flight_insert in Hx as [?|Hx]; [done|]. by apply Hfl.
    + rewrite !summaries_app, Hs, Hsum. cbn. rewrite app_nil_r.
      by destruct (main st).
    + rewrite !fatals_app. cbn. rewrite app_nil_r.
      rewrite (proj2 Hfat Hex), (proj2 Hf); done.
    + by exists pre.
    + intros Hc H. apply elem_of_insert_inv in H as [H|H]; [done|].
      by apply Hopen.
    + intros x Hx. apply in_flight_insert in Hx as [?|Hx]; [done|]. by apply Hfl.
    + rewrite !summaries_app, Hs, Hsum. by rewrite app_nil_r.
    + rewrite !fatals_app. rewrite (proj2 Hfat Hex), (proj2 Hf); done.
    + by exists pre.
    + rewrite !summaries_app, Hs, Hsum. by rewrite app_nil_r.
    + rewrite !fatals_app, (proj2 Hfat Hex). cbn. split; [|done].
      intros H. by apply Hf in H.
Qed.

Lemma Inv_step gz c st st' : Inv gz st -> step c st = Some st' -> Inv gz st'.
Proof.
  intros HI. unfold step. destruct (exited st) eqn:Hex; [done|].
  destruct c as [now|i net].
  - by apply Inv_restoreCommand_step.
  - by apply Inv_restoreWorker_step.
Qed.

Lemma Inv_run gz sched st : Inv gz st -> Inv gz (run sched st).
Proof.
  revert st. induction sched as [|c sched IH]; intros st HI; [done|].
  cbn. apply IH. destruct (step c st) as [st'|] eqn:Hs; [|done].
  by apply (Inv_step gz c st).
Qed.

(** Every state a schedule leads to satisfies the invariant. *)
Lemma Inv_reachable gz sched : Inv gz (run sched (initState F gz)).
Proof. apply Inv_run, Inv_init. Qed.

(** *** Termination: every step uses up some of [measure] *)

Lemma measure_restoreCommand_step now st st' :
  exited st = false ->
  restoreCommand_step L regex start now st = Some st' ->
  (measure st' < measure st)%nat.
Proof.
  intros Hex. unfold restoreCommand_step, measure. rewrite Hex.
  destruct (main st) as [[|[ob|err] d]|ob d| |]; try done.
  - intros [= <-]. cbn. lia.
  - destruct (MatchString L regex (Path ob)); intros [= <-]; cbn;
      rewrite ?Hex; cbn; lia.
  - intros [= <-]. cbn. lia.
  - destruct (all_done (workers st)); [|done]. intros [= <-]. cbn.
    rewrite ?Hex. lia.
Qed.

Lemma measure_restoreWorker_step i net st st' :
  exited st = false ->
  restoreWorker_step L F ustr i net st = Some st' ->
  (measure st' < measure st)%nat.
Proof.
  intros Hex. unfold restoreWorker_step, measure. rewrite Hex.
  destruct (workers st !! i) as [[|ob|]|] eqn:Hi; try done.
  - destruct (main st) as [d|ob d| |]; try done; intros [= <-]; cbn;
      rewrite ?Hex.
    + pose proof (sum_list_with_insert worker_measure _ _ _ (WRestore ob) Hi).
      cbn in *. lia.
    + pose proof (sum_list_with_insert worker_measure _ _ _ WDone Hi).
      cbn in *. lia.
    + pose proof (sum_list_with_insert worker_measure _ _ _ WDone Hi).
      cbn in *. lia.
  - pose proof (sum_list_with_insert worker_measure _ _ _ WRecv Hi).
    destruct (restoreFile L F net ustr (Path ob) (Meta ob)) as [t [[err|]|]];
      intros [= <-]; cbn in *; rewrite ?Hex; lia.
Qed.

Lemma measure_step c st st' :
  step c st = Some st' -> (measure st' < measure st)%nat.
Proof.
  unfold step. destruct (exited st) eqn:Hex; [done|]. destruct c.
  - by apply measure_restoreCommand_step.
  - by apply measure_restoreWorker_step.
Qed.

(** *** Whether a goroutine can run does not depend on the outside world *)

Lemma step_main_blocked now now' st :
  step (SchedMain now) st = None -> step (SchedMain now') st = None.
Proof.
  unfold step, restoreCommand_step. destruct (exited st); [done|].
  destruct (main st) as [[|[ob|err] d]|ob d| |]; try done.
  by destruct (all_done (workers st)).
Qed.

Lemma step_worker_blocked i net net' st :
  step (SchedWorker i net) st = None -> step (SchedWorker i net') st = None.
Proof.
  unfold step, restoreWorker_step. destruct (exited st); [done|].
  destruct (workers st !! i) as [[|ob|]|]; try done.
  by destruct (restoreFile L F net ustr (Path ob) (Meta ob)) as [t [[err|]|]].
Qed.

Lemma pick_None net now st :
  pick L F regex ustr start net now st = None ->
  terminal L F regex ustr start st.
Proof.
  unfold pick. intros Hf c.
  pose proof (List.find_none _ _ Hf) as Hnone.
  assert (forall c', c' ∈ candidates net now st -> step c' st = None) as Hc.
  { intros c' Hc'. apply list_elem_of_In, Hnone in Hc'.
    unfold can_run in Hc'. by destruct (step c' st). }
  destruct c as [now'|i net'].
  - apply (step_main_blocked now). apply Hc. by left.
  - destruct (decide (i < length (workers st))%nat) as [Hi|Hi].
    + apply (step_worker_blocked i net). apply Hc. right.
      apply list_elem_of_fmap. exists i. split; [done|].
      apply elem_of_seq. lia.
    + unfold step, restoreWorker_step. destruct (exited st); [done|].
      rewrite lookup_ge_None_2; [done|lia].
Qed.

Lemma pick_Some net now st c :
  pick L F regex ustr start net now st = Some c -> exists st', step c st = Some st'.
Proof.
  unfold pick. intros Hf. apply List.find_some in Hf as [_ Hf].
  unfold can_run in Hf. destruct (step c st) as [st'|]; [by exists st'|done].
Qed.

Lemma run_cons c sched st :
  run (c :: sched) st = run sched (default st (step c st)).
Proof. reflexivity. Qed.

(** The scheduler's run ends in a state where nothing can run. *)
Lemma schedule_terminal net now fuel st :
  (measure st <= fuel)%nat ->
  terminal L F regex ustr start
    (run (schedule L F regex ustr start net now fuel st) st).
Proof.
  revert st. induction fuel as [|fuel IH]; intros st Hm.
  - cbn. intros c. destruct (step c st) as [st'|] eqn:Hs; [|done].
    apply measure_step in Hs. lia.
  - cbn [schedule]. destruct (pick L F regex ustr start net now st) as [c|] eqn:Hp.
    + rewrite run_cons. apply pick_Some in Hp as [st' Hs]. rewrite Hs.
      change (default st (Some st')) with st'.
      apply IH. apply measure_step in Hs. lia.
    + by apply pick_None in Hp.
Qed.

Lemma run_app sched1 sched2 st :
  run (sched1 ++ sched2) st = run sched2 (run sched1 st).
Proof. revert st. induction sched1 as [|c s IH]; intros st; [done|]. apply IH. Qed.

(** *** Progress: while the process runs and the main goroutine has not
    returned, some goroutine can run, provided there is a worker *)

Lemma step_restore_runs i net st ob :
  exited st = false -> workers st !! i = Some (WRestore ob) ->
  exists st', step (SchedWorker i net) st = Some st'.
Proof.
  intros Hex Hi. unfold step, restoreWorker_step. rewrite Hex, Hi.
  destruct (restoreFile L F net ustr (Path ob) (Meta ob)) as [t [[err|]|]]; eauto.
Qed.

Lemma step_recv_runs i net st :
  exited st = false -> workers st !! i = Some WRecv ->
  (forall d, main st <> Scanning d) ->
  exists st', step (SchedWorker i net) st = Some st'.
Proof.
  intros Hex Hi Hm. unfold step, restoreWorker_step. rewrite Hex, Hi.
  destruct (main st) as [d|ob d| |]; eauto. by destruct (Hm d).
Qed.

Lemma step_scan_runs now st d :
  exited st = false -> main st = Scanning d ->
  exists st', step (SchedMain now) st = Some st'.
Proof.
  intros Hex Hm. unfold step, restoreCommand_step. rewrite Hex, Hm.
  destruct d as [|[ob|err] d]; eauto.
  destruct (MatchString L regex (Path ob)); eauto.
Qed.

Lemma progress gz st :
  Inv gz st -> 0 < restoreWorkers F ->
  terminal L F regex ustr start st ->
  exited st = true \/ main st = Returned.
Proof.
  intros [_ Hlen Hopen _ _ _ _ _] Hw Hterm.
  destruct (exited st) eqn:Hex; [by left|right].
  set (net := (fun _ _ _ => Err "") : Network).
  assert (forall i w, workers st !! i = Some w -> w <> WDone ->
            (forall d, main st <> Scanning d) -> False) as Hworker.
  { intros i w Hi Hne Hm. destruct w as [|ob|]; [| |done].
    - destruct (step_recv_runs i net st Hex Hi Hm) as [st' Hs].
      by rewrite Hterm in Hs.
    - destruct (step_restore_runs i net st ob Hex Hi) as [st' Hs].
      by rewrite Hterm in Hs. }
  destruct (main st) as [d|ob d| |] eqn:Hm; [exfalso..|done].
  - destruct (step_scan_runs 0 st d Hex Hm) as [st' Hs]. by rewrite Hterm in Hs.
  - destruct (workers st) as [|w ws] eqn:Hws; [cbn in Hlen; lia|].
    apply (Hworker 0%nat w); [done| |done].
    intros ->. apply Hopen; [done|]. by left.
  - destruct (all_done (workers st)) eqn:Hall.
    + specialize (Hterm (SchedMain 0)). unfold step, restoreCommand_step in Hterm.
      by rewrite Hex, Hm, Hall in Hterm.
    + apply all_done_false in Hall as (i & w & Hi & Hne).
      by apply (Hworker i w).
Qed.

(** *** What the trace can contain *)

Lemma posts_step c st st' :
  (forall net path data, posts (restoreFile L F net ustr path data).1 = []) ->
  step c st = Some st' -> posts (out st') = posts (out st).
Proof.
  intros Hrf. unfold step. destruct (exited st); [done|].
  destruct c as [now|i net].
  - unfold restoreCommand_step. destruct (main st) as [[|[ob|err] d]|ob d| |]; try done.
    + by intros [= <-].
    + by destruct (MatchString L regex (Path ob)); intros [= <-].
    + intros [= <-]. cbn. by rewrite posts_app, app_nil_r.
    + destruct (all_done (workers st)); [|done]. intros [= <-]. cbn.
      by rewrite posts_app, app_nil_r.
  - unfold restoreWorker_step. destruct (workers st !! i) as [[|ob|]|]; try done.
    + by destruct (main st); try done; intros [= <-].
    + specialize (Hrf net (Path ob) (Meta ob)).
      destruct (restoreFile L F net ustr (Path ob) (Meta ob)) as [t [[err|]|]];
        cbn in Hrf; intros [= <-]; cbn; rewrite !posts_app, Hrf;
        by rewrite ?app_nil_r.
Qed.

Lemma posts_run sched st :
  (forall net path data, posts (restoreFile L F net ustr path data).1 = []) ->
  posts (out (run sched st)) = posts (out st).
Proof.
  intros Hrf. revert st. induction sched as [|c sched IH]; intros st; [done|].
  rewrite run_cons, IH. destruct (step c st) as [st'|] eqn:Hs; [|done].
  by apply (posts_step c).
Qed.

(** The process exits only on a malformed record or inside [restoreFile]. *)
Lemma exited_step c st st' :
  (forall net path data, (restoreFile L F net ustr path data).2 <> None) ->
  (forall err d, main st <> Scanning (Bad err :: d)) ->
  step c st = Some st' -> exited st' = false.
Proof.
  intros Hrf Hbad. unfold step. destruct (exited st) eqn:Hex; [done|].
  destruct c as [now|i net].
  - unfold restoreCommand_step. destruct (main st) as [[|[ob|err] d]|ob d| |]; try done.
    + by intros [= <-].
    + by destruct (MatchString L regex (Path ob)); intros [= <-].
    + by destruct (Hbad err d).
    + destruct (all_done (workers st)); [|done]. by intros [= <-].
  - unfold restoreWorker_step. destruct (workers st !! i) as [[|ob|]|]; try done.
    + by destruct (main st); try done; intros [= <-].
    + specialize (Hrf net (Path ob) (Meta ob)).
      by destruct (restoreFile L F net ustr (Path ob) (Meta ob)) as [t [[err|]|]];
        intros [= <-].
Qed.

Lemma exited_terminal st : exited st = true -> terminal L F regex ustr start st.
Proof. intros Hex c. unfold step. by rewrite Hex. Qed.

(** *** Archives without a malformed record *)

#[local] Instance Rec_inj : Inj (=) (=) Rec.
Proof. by intros ob1 ob2 [= ->]. Qed.

Lemma Inv_records items st :
  Inv (Rec <$> items) st ->
  exists pre rest, items = pre ++ rest /\ unread (main st) = Rec <$> rest /\
    matching pre = sent st ++ pending (main st) /\
    nfiles st = counted (length (matching pre)).
Proof.
  intros [(pre & Hgz & Hsent & Hn) _ _ _ _ _ _ _].
  apply fmap_app_inv in Hgz as (pre' & rest & Hpre & Hrest & ->).
  apply (inj _) in Hpre as <-. by exists pre, rest.
Qed.

Lemma matching_app l1 l2 : matching (l1 ++ l2) = matching l1 ++ matching l2.
Proof. apply List.filter_app. Qed.

Lemma matching_matches ob items :
  ob ∈ matching items -> matches L regex ob = true /\ ob ∈ items.
Proof.
  rewrite !list_elem_of_In. unfold matching. rewrite List.filter_In. tauto.
Qed.

Lemma never_exits items sched :
  (forall net path data, (restoreFile L F net ustr path data).2 <> None) ->
  exited (run sched (initState F (Rec <$> items))) = false.
Proof.
  intros Hrf.
  assert (forall st, Inv (Rec <$> items) st -> exited st = false ->
            exited (run sched st) = false) as H.
  { induction sched as [|c sched IH]; intros st HI Hex; [done|].
    rewrite run_cons. destruct (step c st) as [st'|] eqn:Hs; [|by apply IH].
    apply IH; [by apply (Inv_step _ c st)|].
    apply (exited_step c st); [done| |done].
    intros err d Hm. apply Inv_records in HI as (pre & rest & _ & Hu & _).
    rewrite Hm in Hu. by destruct rest. }
  apply H; [apply Inv_init|done].
Qed.

Lemma run_terminal sched st :
  terminal L F regex ustr start st -> run sched st = st.
Proof.
  intros Hterm. induction sched as [|c sched IH]; [done|].
  by rewrite run_cons, Hterm.
Qed.

(** On an archive of well-formed records: once the channel is closed every
    matching record has been sent and counted, and the summary, if logged,
    reports the counter. *)
Lemma closed_count items sched :
  let st := run sched (initState F (Rec <$> items)) in
  closed (main st) = true ->
  sent st = matching items /\
  nfiles st = counted (length (matching items)) /\
  (main st = Returned ->
   exited st = false /\ summaries (out st) = [counted (length (matching items))]).
Proof.
  intros st Hc. pose proof (Inv_reachable (Rec <$> items) sched) as HI.
  fold st in HI. pose proof (Inv_records _ _ HI) as (pre & rest & -> & Hu & Hs & Hn).
  destruct HI as [_ _ _ _ _ Hsum _ Hrun].
  assert (rest = []) as ->.
  { destruct (main st); try done; by destruct rest. }
  rewrite app_nil_r.
  assert (pending (main st) = []) as Hp by (by destruct (main st)).
  rewrite Hp, app_nil_r in Hs. split_and!; try done.
  intros Hm. split; [by apply Hrun|]. by rewrite Hsum, Hm, Hn.
Qed.

Lemma counted_matching items :
  Z.of_nat (length items) < 2 ^ 63 ->
  counted (length (matching items)) = Z.of_nat (length (matching items)).
Proof.
  intros Hlen. apply counted_small.
  pose proof (List.filter_length_le (matches L regex) items).
  unfold matching. lia.
Qed.

(** The one request [restoreFile] makes once the base is parsed and the
    metadata serialized, whatever the network answers. *)
Lemma restoreFile_posts net path data u body :
  restoreNoop F = false ->
  url_Parse L ustr = Ok u ->
  json_Marshal L data = Ok body ->
  posts (restoreFile L F net ustr path data).1 =
    [(url_String L (url.set_Path u (restorePath path)), "application/json", body)].
Proof.
  intros Hn Hu Hb.
  destruct (net (url_String L (url.set_Path u (restorePath path)))
              "application/json" body) as [res|err] eqn:Hnet.
  - destruct (decide (http.StatusCode res = 201)) as [Hc|Hc].
    + by rewrite (restoreFile_created L F net ustr path data u body Hn Hu Hb res).
    + by rewrite (restoreFile_refused L F net ustr path data u body Hn Hu Hb res).
  - by rewrite (restoreFile_post_failed L F net ustr path data u body Hn Hu Hb err).
Qed.

(** *** Runs that no submission ends *)

Lemma restoreFile_answered net path data :
  restoreNoop F = true \/ (exists u, url_Parse L ustr = Ok u) ->
  (forall u c b, exists res, net u c b = Ok res) ->
  (restoreFile L F net ustr path data).2 <> None.
Proof.
  intros Hbase Hnet. destruct (restoreNoop F) eqn:Hn.
  - by rewrite restoreFile_noop.
  - destruct Hbase as [|[u Hu]]; [done|].
    destruct (json_Marshal L data) as [body|err] eqn:Hb.
    + destruct (Hnet (url_String L (url.set_Path u (restorePath path)))
                  "application/json" body) as [res Hres].
      destruct (decide (http.StatusCode res = 201)) as [Hc|Hc].
      * by rewrite (restoreFile_created L F net ustr path data u body Hn Hu Hb res).
      * by rewrite (restoreFile_refused L F net ustr path data u body Hn Hu Hb res).
    + by rewrite (restoreFile_bad_meta L F net ustr path data u err).
Qed.

Lemma running_step c st st' :
  (forall err d, main st <> Scanning (Bad err :: d)) ->
  (forall i net ob, c = SchedWorker i net ->
     workers st !! i = Some (WRestore ob) ->
     (restoreFile L F net ustr (Path ob) (Meta ob)).2 <> None) ->
  step c st = Some st' -> exited st' = false.
Proof.
  intros Hbad Hrf. unfold step. destruct (exited st) eqn:Hex; [done|].
  destruct c as [now|i net].
  - unfold restoreCommand_step.
    destruct (main st) as [[|[ob|err] d]|ob d| |]; try done.
    + by intros [= <-].
    + by destruct (MatchString L regex (Path ob)); intros [= <-].
    + by destruct (Hbad err d).
    + destruct (all_done (workers st)); [|done]. by intros [= <-].
  - unfold restoreWorker_step.
    destruct (workers st !! i) as [[|ob|]|] eqn:Hi; try done.
    + by destruct (main st); try done; intros [= <-].
    + specialize (Hrf i net ob eq_refl Hi).
      by destruct (restoreFile L F net ustr (Path ob) (Meta ob)) as [t [[err|]|]];
        intros [= <-].
Qed.

Lemma stays_running items sched st :
  Inv (Rec <$> items) st -> exited st = false ->
  (forall st0 i net ob,
     Inv (Rec <$> items) st0 -> SchedWorker i net ∈ sched ->
     workers st0 !! i = Some (WRestore ob) ->
     (restoreFile L F net ustr (Path ob) (Meta ob)).2 <> None) ->
  exited (run sched st) = false.
Proof.
  revert st. induction sched as [|c sched IH]; intros st HI Hex Hrf; [done|].
  rewrite run_cons.
  assert (forall st0 i net ob,
            Inv (Rec <$> items) st0 -> SchedWorker i net ∈ sched ->
            workers st0 !! i = Some (WRestore ob) ->
            (restoreFile L F net ustr (Path ob) (Meta ob)).2 <> None) as Hrf'.
  { intros st0 i net ob HI0 Hin Hi0. apply (Hrf st0 i net ob); [done| |done].
    by right. }
  destruct (step c st) as [st'|] eqn:Hs; [|by apply IH].
  apply IH; [by apply (Inv_step _ c st)| |done].
  apply (running_step c st); [| |done].
  - intros err d Hm. apply Inv_records in HI as (pre & rest & _ & Hu & _).
    rewrite Hm in Hu. by destruct rest.
  - intros i net ob -> Hi. apply (Hrf st i net ob); [done| |done]. by left.
Qed.

Lemma schedule_asks net now fuel st :
  Forall (asks net) (schedule L F regex ustr start net now fuel st).
Proof.
  revert st. induction fuel as [|fuel IH]; intros st; [by constructor|].
  cbn [schedule]. destruct (pick L F regex ustr start net now st) as [c|] eqn:Hp;
    [|by constructor].
  constructor; [|apply IH].
  unfold pick in Hp. apply List.find_some in Hp as [Hin _].
  apply list_elem_of_In in Hin. unfold candidates in Hin.
  apply elem_of_cons in Hin as [->|Hin]; [done|].
  by apply list_elem_of_fmap in Hin as (i & -> & _).
Qed.

(** With a worker, and a network that never makes [restoreFile] end the
    process, the scheduler brings a running state over an archive of
    well-formed records to the return of [restoreCommand]. *)
Lemma can_return items st net now :
  0 < restoreWorkers F ->
  Inv (Rec <$> items) st -> exited st = false ->
  (forall path data, (restoreFile L F net ustr path data).2 <> None) ->
  main (run (schedule L F regex ustr start net now (measure st) st) st) = Returned.
Proof.
  intros Hw HI Hex Hrf.
  destruct (progress (Rec <$> items)
              (run (schedule L F regex ustr start net now (measure st) st) st))
    as [Hex'|Hm]; [by apply Inv_run|done|by apply schedule_terminal| |done].
  rewrite (stays_running items) in Hex'; [done..|].
  intros st0 i net' ob _ Hin _.
  pose proof (schedule_asks net now (measure st) st) as Hasks.
  rewrite Forall_forall in Hasks. specialize (Hasks _ Hin). cbn in Hasks.
  subst net'. apply Hrf.
Qed.

Lemma returned_summary items sched :
  Z.of_nat (length items) < 2 ^ 63 ->
  main (run sched (initState F (Rec <$> items))) = Returned ->
  sent (run sched (initState F (Rec <$> items))) = matching items /\
  nfiles (run sched (initState F (Rec <$> items)))
    = Z.of_nat (length (matching items)) /\
  summaries (out (run sched (initState F (Rec <$> items))))
    = [Z.of_nat (length (matching items))].
Proof.
  intros Hlen Hm.
  destruct (closed_count items sched) as (Hsent & Hn & Hret).
  { cbn zeta. by rewrite Hm. }
  cbn zeta in Hsent, Hn, Hret. rewrite <- counted_matching by done.
  split_and!; [done..|]. by apply Hret.
Qed.

Lemma unmatched_idle items st i ob :
  matching items = [] -> Inv (Rec <$> items) st ->
  workers st !! i = Some (WRestore ob) -> False.
Proof.
  intros Hnone HI Hi. pose proof (inv_flight _ _ _ _ _ HI) as Hfl.
  apply Inv_records in HI as (pre & rest & -> & _ & Hs & _).
  rewrite matching_app in Hnone. apply app_eq_nil in Hnone as [Hpre _].
  rewrite Hpre in Hs. symmetry in Hs. apply app_eq_nil in Hs as [Hsent _].
  assert (ob ∈ sent st) as Hob.
  { apply Hfl, elem_of_in_flight. by apply (list_elem_of_lookup_2 _ i). }
  rewrite Hsent in Hob. by apply elem_of_nil in Hob.
Qed.

(** ** The claims about one submission *)

(** C10: with the noop flag set, [restoreFile] returns [nil] right after its
    first log line, before [url.Parse] is reached: whatever the base, the
    path and the metadata, and whatever [url.Parse] would say of the base, a
    dry-run submission succeeds, and the worker's step that performs it
    leaves the process running. *)
Theorem dry_run_submission_never_parses_base net path data :
  restoreNoop F = true ->
  restoreFile L F net ustr path data = ([LogPrintf (Restoring path)], Some None) /\
  (forall i st st', step (SchedWorker i net) st = Some st' -> exited st' = false).
Proof.
  intros Hn. split; [by apply restoreFile_noop|].
  intros i st st'. unfold step. destruct (exited st) eqn:Hex; [done|].
  unfold restoreWorker_step. destruct (workers st !! i) as [[|ob|]|]; try done.
  - by destruct (main st); try done; intros [= <-].
  - rewrite restoreFile_noop by done. by intros [= <-].
Qed.

(** C5: when the POST of a non-dry-run submission comes back with a response,
    [restoreFile] returns [nil] exactly when the status code is 201; with any
    other code it returns the error [HTTP Error restoring <path>: <status>],
    having logged the status line and copied the response body, as it is, to
    standard error. *)
Theorem created_status_decides_outcome net path data u body res :
  restoreNoop F = false ->
  url_Parse L ustr = Ok u ->
  json_Marshal L data = Ok body ->
  net (url_String L (url.set_Path u (restorePath path))) "application/json" body
    = Ok res ->
  let r := restoreFile L F net ustr path data in
  (r.2 = Some None <-> http.StatusCode res = 201) /\
  (http.StatusCode res <> 201 ->
   r.2 = Some (Some ("HTTP Error restoring " +:+ path +:+ ": " +:+ http.Status res)) /\
   r.1 = [LogPrintf (Restoring path);
          HttpPost (url_String L (url.set_Path u (restorePath path)))
            "application/json" body;
          LogPrintf (RestoreError (http.Status res));
          StderrWrite (http.Body res); StderrWrite newline]).
Proof.
  intros Hn Hu Hb Hnet r. subst r.
  destruct (decide (http.StatusCode res = 201)) as [Hc|Hc].
  - rewrite (restoreFile_created L F net ustr path data u body Hn Hu Hb res)
      by done. by split.
  - rewrite (restoreFile_refused L F net ustr path data u body Hn Hu Hb res)
      by done. split; [by split|done].
Qed.

(** C7, as the code has it: the request goes to the parsed base with its
    path replaced by [/.cbfs/backup/restore/<path>].  Scheme, user, host,
    query and fragment of the base are kept; a path component of the base is
    dropped; escaping is whatever [URL.String] applies to the result. *)
Theorem request_url_replaces_base_path net path data u body :
  restoreNoop F = false ->
  url_Parse L ustr = Ok u ->
  json_Marshal L data = Ok body ->
  posts (restoreFile L F net ustr path data).1 =
    [(url_String L
        {| url.Scheme := url.Scheme u; url.Opaque := url.Opaque u;
           url.User := url.User u; url.Host := url.Host u;
           url.Path := "/.cbfs/backup/restore/" +:+ path;
           url.RawQuery := url.RawQuery u; url.Fragment := url.Fragment u |},
      "application/json", body)].
Proof. intros Hn Hu Hb. by rewrite (restoreFile_posts net path data u body). Qed.

(** C8, as the code has it: in a submission that is not a dry run and whose
    base parses, the body of the one request is what [json.Marshal] returns
    for the record's raw metadata, whatever that is, and the content type is
    [application/json]; the program does nothing to the metadata in between.
    So the body is the metadata as it stood in the archive exactly when
    [json.Marshal] gives it back unchanged.  When [json.Marshal] fails no
    request is made and its error is the submission's error. *)
Theorem request_body_is_marshalled_metadata net ob u :
  restoreNoop F = false ->
  url_Parse L ustr = Ok u ->
  (forall body, json_Marshal L (Meta ob) = Ok body ->
     posts (restoreFile L F net ustr (Path ob) (Meta ob)).1 =
       [(url_String L (url.set_Path u (restorePath (Path ob))),
         "application/json", body)]) /\
  (forall m, Meta ob = Some m ->
     (exists target,
        posts (restoreFile L F net ustr (Path ob) (Meta ob)).1 =
          [(target, "application/json", m)]) <->
     json_Marshal L (Some m) = Ok m) /\
  (forall err, json_Marshal L (Meta ob) = Err err ->
     restoreFile L F net ustr (Path ob) (Meta ob) =
       ([LogPrintf (Restoring (Path ob))], Some (Some err))).
Proof.
  intros Hn Hu. split_and!.
  - intros body Hb. by apply restoreFile_posts.
  - intros m Hm. rewrite Hm. split.
    + intros [target Hp].
      destruct (json_Marshal L (Some m)) as [body|err] eqn:Hb.
      * rewrite (restoreFile_posts net (Path ob) (Some m) u body) in Hp by done.
        by injection Hp as _ ->.
      * by rewrite (restoreFile_bad_meta L F net ustr _ _ u err) in Hp.
    + intros Hb. eexists. by apply (restoreFile_posts net (Path ob) (Some m) u m).
  - intros err Hb. by apply (restoreFile_bad_meta L F net ustr _ _ u err).
Qed.

(** ** The claims about a run *)

(** C1, as the code has it: a POST that returns an error instead of a
    response is not a per-item failure but ends the run.  [restoreFile] logs
    the URL and the error with [log.Fatalf] and returns nothing to the
    worker; the process exits; the worker never gets back to the channel for
    a next item, and no summary is logged, then or later. *)
Theorem transport_failure_ends_the_run gz sched net i ob u body err :
  restoreNoop F = false ->
  url_Parse L ustr = Ok u ->
  json_Marshal L (Meta ob) = Ok body ->
  net (url_String L (url.set_Path u (restorePath (Path ob)))) "application/json"
    body = Err err ->
  exited (run sched (initState F gz)) = false ->
  workers (run sched (initState F gz)) !! i = Some (WRestore ob) ->
  restoreFile L F net ustr (Path ob) (Meta ob) =
    ([LogPrintf (Restoring (Path ob));
      HttpPost (url_String L (url.set_Path u (restorePath (Path ob))))
        "application/json" body;
      LogFatalf (ErrorExecutingPOST
                   (url.set_Path u (restorePath (Path ob))) err)], None) /\
  exists st',
    step (SchedWorker i net) (run sched (initState F gz)) = Some st' /\
    exited st' = true /\
    LogFatalf (ErrorExecutingPOST (url.set_Path u (restorePath (Path ob))) err)
      ∈ out st' /\
    forall sched',
      workers (run sched' st') !! i = Some (WRestore ob) /\
      summaries (out (run sched' st')) = [].
Proof.
  intros Hn Hu Hb Hnet Hex Hi.
  pose proof (restoreFile_post_failed L F net ustr (Path ob) (Meta ob) u body
                Hn Hu Hb err Hnet) as Hrf.
  split; [done|].
  pose proof (Inv_reachable gz sched) as HI.
  set (st := run sched (initState F gz)) in *.
  assert (summaries (out st) = []) as Hsum.
  { rewrite (inv_summary _ _ _ _ _ HI).
    destruct (main st) eqn:Hm; try done.
    pose proof (inv_returned _ _ _ _ _ HI Hm) as Hall.
    rewrite all_done_spec in Hall.
    by specialize (Hall _ (list_elem_of_lookup_2 _ _ _ Hi)). }
  unfold step, restoreWorker_step. rewrite Hex, Hi, Hrf.
  eexists. split; [done|]. cbn. split_and!; [done| |].
  - apply elem_of_app. right. by repeat constructor.
  - intros sched'. rewrite run_terminal by (by apply exited_terminal). cbn.
    split; [done|]. by rewrite summaries_app, Hsum.
Qed.

(** C9: when a submission ends in a per-item failure ([restoreFile] returns
    an error), the worker's step logs it and changes nothing else: the worker
    is back at the channel for its next item, the other workers, the main
    goroutine, the counter and the items sent are as before, and the process
    keeps running.  However the run goes on from there, a summary that gets
    logged reports the full number of matching records. *)
Theorem failed_item_is_isolated items sched net i ob t err :
  Z.of_nat (length items) < 2 ^ 63 ->
  let st := run sched (initState F (Rec <$> items)) in
  exited st = false ->
  workers st !! i = Some (WRestore ob) ->
  restoreFile L F net ustr (Path ob) (Meta ob) = (t, Some (Some err)) ->
  exists st',
    step (SchedWorker i net) st = Some st' /\
    main st' = main st /\
    nfiles st' = nfiles st /\
    sent st' = sent st /\
    workers st' = <[i:=WRecv]> (workers st) /\
    exited st' = false /\
    out st' = out st ++ t ++ [LogPrintf (ErrorRestoring (Path ob) err)] /\
    forall sched', main (run sched' st') = Returned ->
      exited (run sched' st') = false /\
      summaries (out (run sched' st')) = [Z.of_nat (length (matching items))].
Proof.
  intros Hlen st Hex Hi Hrf. unfold step, restoreWorker_step. rewrite Hex, Hi, Hrf.
  eexists. split; [done|]. cbn. split_and!; try done.
  intros sched' Hm.
  set (c := SchedWorker i net).
  assert (run (sched ++ c :: sched') (initState F (Rec <$> items)) =
          run sched' {| main := main st; nfiles := nfiles st;
                        workers := <[i:=WRecv]> (workers st); sent := sent st;
                        out := out st ++ t ++ [LogPrintf (ErrorRestoring (Path ob) err)];
                        exited := false |}) as Hrun.
  { rewrite run_app, run_cons. fold st. unfold c, step, restoreWorker_step.
    by rewrite Hex, Hi, Hrf. }
  rewrite <- Hrun in *.
  destruct (closed_count items (sched ++ c :: sched')) as (_ & _ & Hret).
  { by rewrite Hm. }
  rewrite <- counted_matching by done. by apply Hret.
Qed.

(** C2: on an archive of well-formed records, under every schedule, the
    items sent on the channel together with the one the main goroutine is
    sending are at every moment exactly the matching records among those
    read so far, in archive order: each one matches the pattern and comes
    from the archive, and the counter [nfiles] is their number.  Once the
    channel is closed the items sent are exactly the matching records of the
    archive, the counter is their number, and so is the count of the
    summary.  And the close is reached: with at least one worker, in a dry
    run or with a base that parses, every running state can be continued to
    the return of [restoreCommand], where all of this holds. *)
Theorem dispatched_are_the_matching_records items sched :
  Z.of_nat (length items) < 2 ^ 63 ->
  let st := run sched (initState F (Rec <$> items)) in
  sent st `prefix_of` matching items /\
  (forall ob, ob ∈ sent st -> MatchString L regex (Path ob) = true /\ ob ∈ items) /\
  (exists pre rest,
     items = pre ++ rest /\ unread (main st) = Rec <$> rest /\
     sent st ++ pending (main st) = matching pre /\
     nfiles st = Z.of_nat (length (matching pre))) /\
  (closed (main st) = true ->
   sent st = matching items /\
   nfiles st = Z.of_nat (length (sent st)) /\
   Z.of_nat (length (sent st)) =
     Z.of_nat (length (List.filter (fun ob => MatchString L regex (Path ob)) items)) /\
   (main st = Returned -> summaries (out st) = [Z.of_nat (length (sent st))])) /\
  (0 < restoreWorkers F ->
   restoreNoop F = true \/ (exists u, url_Parse L ustr = Ok u) ->
   exited st = false ->
   exists sched',
     main (run (sched ++ sched') (initState F (Rec <$> items))) = Returned /\
     sent (run (sched ++ sched') (initState F (Rec <$> items))) = matching items /\
     nfiles (run (sched ++ sched') (initState F (Rec <$> items)))
       = Z.of_nat (length (matching items)) /\
     summaries (out (run (sched ++ sched') (initState F (Rec <$> items))))
       = [Z.of_nat (length (matching items))]).
Proof.
  intros Hlen st.
  pose proof (Inv_reachable (Rec <$> items) sched) as HI. fold st in HI.
  pose proof (Inv_records _ _ HI) as (pre & rest & Hitems & Hu & Hs & Hn).
  assert (sent st `prefix_of` matching items) as Hpre.
  { rewrite Hitems, matching_app, Hs, <- app_assoc. by eexists. }
  split_and!; [done| | | |].
  - intros ob Hob. apply matching_matches.
    destruct Hpre as [k ->]. apply elem_of_app. by left.
  - exists pre, rest. split_and!; try done.
    rewrite Hn. apply counted_small.
    pose proof (List.filter_length_le (matches L regex) pre).
    unfold matching. rewrite Hitems, length_app in Hlen. lia.
  - intros Hc. destruct (closed_count items sched Hc) as (Hsent & Hnf & Hret).
    fold st in Hsent, Hnf, Hret. rewrite counted_matching in * by done.
    rewrite Hsent. split_and!; try done. intros Hm. by apply Hret.
  - intros Hw Hbase Hex.
    set (net := answering (http.mkResponse 201 "201 Created" "")).
    exists (schedule L F regex ustr start net 0 (measure st) st).
    assert (main (run (sched ++ schedule L F regex ustr start net 0 (measure st) st)
                    (initState F (Rec <$> items))) = Returned) as Hm.
    { rewrite run_app. apply (can_return items); try done.
      intros path data. apply restoreFile_answered; [done|].
      intros ? ? ?. by eexists. }
    split; [done|]. by apply returned_summary.
Qed.

(** C3: with the noop flag set, on an archive of well-formed records and
    with at least one worker: every call of [restoreFile] returns [nil] having
    only logged its first line; under every schedule the trace holds no HTTP
    request and the process never exits early; the run can always be brought
    to its end, it ends only with the main goroutine returned, and the
    summary then reports the number of matching records. *)
Theorem dry_run_posts_nothing_and_reports_all items sched :
  restoreNoop F = true ->
  0 < restoreWorkers F ->
  Z.of_nat (length items) < 2 ^ 63 ->
  let st := run sched (initState F (Rec <$> items)) in
  (forall net path data,
     restoreFile L F net ustr path data = ([LogPrintf (Restoring path)], Some None)) /\
  posts (out st) = [] /\
  exited st = false /\
  (terminal L F regex ustr start st -> main st = Returned) /\
  (main st = Returned ->
   summaries (out st) = [Z.of_nat (length (matching items))]) /\
  (exists sched',
     main (run (sched ++ sched') (initState F (Rec <$> items))) = Returned).
Proof.
  intros Hn Hw Hlen st.
  assert (forall net path data,
            restoreFile L F net ustr path data =
              ([LogPrintf (Restoring path)], Some None)) as Hrf.
  { intros. by apply restoreFile_noop. }
  assert (forall sched0, exited (run sched0 (initState F (Rec <$> items))) = false)
    as Hrunning.
  { intros sched0. apply never_exits. intros net path data. by rewrite Hrf. }
  assert (forall sched0,
            terminal L F regex ustr start (run sched0 (initState F (Rec <$> items))) ->
            main (run sched0 (initState F (Rec <$> items))) = Returned) as Hend.
  { intros sched0 Hterm.
    destruct (progress _ _ (Inv_reachable (Rec <$> items) sched0) Hw Hterm)
      as [Hex|Hm]; [|done].
    by rewrite Hrunning in Hex. }
  split_and!; try done.
  - unfold st. rewrite posts_run; [done|]. intros net path data. by rewrite Hrf.
  - apply Hrunning.
  - apply Hend.
  - intros Hm. destruct (closed_count items sched) as (_ & _ & Hret).
    { fold st. by rewrite Hm. }
    rewrite <- counted_matching by done. by apply Hret.
  - exists (schedule L F regex ustr start (fun _ _ _ => Err "") 0 (measure st) st).
    apply Hend. rewrite run_app. by apply schedule_terminal.
Qed.

Lemma scan_split pre err post pre' u :
  (Rec <$> pre) ++ Bad err :: post = (Rec <$> pre') ++ u ->
  exists mid, pre = pre' ++ mid /\ u = (Rec <$> mid) ++ Bad err :: post.
Proof.
  revert pre. induction pre' as [|x pre' IH]; intros pre H.
  - by exists pre.
  - destruct pre as [|y pre]; [done|]. cbn in H.
    injection H as -> H. destruct (IH _ H) as (mid & -> & ->). by exists mid.
Qed.

(** C4: on an archive whose first undecodable record comes after the records
    [pre], under every schedule: the channel is never closed and no summary is
    logged; what has been sent is an initial part of the matching records of
    [pre]; the malformed record and all that follows it stay unread until the
    scan reaches the malformed record, and the step that decodes it logs the
    error with [log.Fatalf] and ends the process, after which nothing runs.
    With at least one worker the run cannot end in any other way than by
    exiting. *)
Theorem malformed_record_aborts_the_run pre err post sched :
  let st := run sched (initState F ((Rec <$> pre) ++ Bad err :: post)) in
  closed (main st) = false /\
  summaries (out st) = [] /\
  sent st `prefix_of` matching pre /\
  (exists mid, unread (main st) = (Rec <$> mid) ++ Bad err :: post) /\
  (exited st = false -> main st = Scanning (Bad err :: post) ->
   forall now, exists st',
     step (SchedMain now) st = Some st' /\
     exited st' = true /\
     sent st' = sent st /\
     out st' = out st ++ [LogFatalf (ErrorReading err)] /\
     forall sched', run sched' st' = st') /\
  (0 < restoreWorkers F -> terminal L F regex ustr start st -> exited st = true).
Proof.
  intros st.
  pose proof (Inv_reachable ((Rec <$> pre) ++ Bad err :: post) sched) as HI.
  fold st in HI.
  pose proof HI as [(pre' & Hgz & Hsent & _) _ _ _ _ Hsum _ _].
  apply scan_split in Hgz as (mid & -> & Hu).
  assert (closed (main st) = false) as Hc.
  { destruct (main st); try done; by destruct mid. }
  split_and!.
  - done.
  - rewrite Hsum. by destruct (main st).
  - rewrite matching_app, Hsent, <- app_assoc. by eexists.
  - by exists mid.
  - intros Hex Hm now. unfold step, restoreCommand_step. rewrite Hex, Hm.
    eexists. split; [done|]. cbn. split_and!; try done.
    intros sched'. by apply run_terminal, exited_terminal.
  - intros Hw Hterm. destruct (progress _ _ HI Hw Hterm) as [Hex|Hm]; [done|].
    by rewrite Hm in Hc.
Qed.

(** C6, as the code has it: a base that [url.Parse] rejects is fatal, but it
    is found inside [restoreFile], not at start-up, whose outcome is the
    same whatever the base.  With such a base no HTTP request is ever made.
    Outside a dry run, a worker that holds a record (one that was decoded,
    matched the pattern, was counted and was sent to it) ends the process
    with [log.Fatalf] when it calls [restoreFile].  In a dry run, or when no
    record of the archive matches, the base is never parsed: on an archive
    of well-formed records and with at least one worker the process never
    exits early and the run can always be continued to the summary. *)
Theorem malformed_base_fails_at_first_submission err :
  url_Parse L ustr = Err err ->
  (forall now ustr', restoreCommand L F ustr now [] = restoreCommand L F ustr' now []) /\
  (forall gz sched, posts (out (run sched (initState F gz))) = []) /\
  (restoreNoop F = false ->
   forall gz sched i net ob,
     exited (run sched (initState F gz)) = false ->
     workers (run sched (initState F gz)) !! i = Some (WRestore ob) ->
     (Rec ob ∈ gz /\
      MatchString L regex (Path ob) = true /\
      ob ∈ sent (run sched (initState F gz)) /\
      nfiles (run sched (initState F gz)) =
        counted (length (sent (run sched (initState F gz)) ++
                         pending (main (run sched (initState F gz)))))) /\
     exists st',
       step (SchedWorker i net) (run sched (initState F gz)) = Some st' /\
       exited st' = true /\
       nfiles st' = nfiles (run sched (initState F gz)) /\
       sent st' = sent (run sched (initState F gz)) /\
       LogFatalf (ErrorParsingURL err) ∈ out st' /\
       posts (out st') = []) /\
  (forall items sched,
     restoreNoop F = true \/ matching items = [] ->
     0 < restoreWorkers F ->
     Z.of_nat (length items) < 2 ^ 63 ->
     exited (run sched (initState F (Rec <$> items))) = false /\
     exists sched',
       main (run (sched ++ sched') (initState F (Rec <$> items))) = Returned /\
       summaries (out (run (sched ++ sched') (initState F (Rec <$> items))))
         = [Z.of_nat (length (matching items))]).
Proof.
  intros Hu. split_and!.
  - done.
  - intros gz sched. rewrite posts_run; [done|].
    intros net path data. by apply (restoreFile_posts_bad_base _ _ _ _ _ _ err).
  - intros Hn gz sched i net ob Hex Hi.
    pose proof (Inv_reachable gz sched) as HI.
    set (st := run sched (initState F gz)) in *. split.
    + pose proof (inv_flight _ _ _ _ _ HI) as Hfl.
      destruct HI as [(pre & Hgz & Hs & Hnf) _ _ _ _ _ _ _].
      assert (ob ∈ sent st) as Hob.
      { apply Hfl, elem_of_in_flight. by apply (list_elem_of_lookup_2 _ i). }
      assert (ob ∈ matching pre) as Hmatch.
      { rewrite Hs. apply elem_of_app. by left. }
      apply matching_matches in Hmatch as [Hm Hpre].
      split_and!; try done.
      * rewrite Hgz. apply elem_of_app. left. by apply list_elem_of_fmap_2.
      * by rewrite <- Hs.
    + assert (posts (out st) = []) as Hposts.
      { unfold st. rewrite posts_run; [done|]. intros net' path data.
        by apply (restoreFile_posts_bad_base _ _ _ _ _ _ err). }
      unfold step, restoreWorker_step.
      rewrite Hex, Hi, (restoreFile_bad_base L F net ustr _ _ err) by done.
      eexists. split; [done|]. cbn. split_and!; try done.
      * apply elem_of_app. right. by repeat constructor.
      * by rewrite posts_app, Hposts.
  - intros items sched Hquiet Hw Hlen.
    assert (forall (sched0 : list Choice) st0 i net ob,
              Inv (Rec <$> items) st0 -> SchedWorker i net ∈ sched0 ->
              workers st0 !! i = Some (WRestore ob) ->
              (restoreFile L F net ustr (Path ob) (Meta ob)).2 <> None) as Hsafe.
    { intros sched0 st0 i net ob HI0 _ Hi0. destruct Hquiet as [Hn|Hnone].
      - by rewrite restoreFile_noop.
      - destruct (unmatched_idle items st0 i ob Hnone HI0 Hi0). }
    assert (forall sched0, exited (run sched0 (initState F (Rec <$> items))) = false)
      as Hrunning.
    { intros sched0. apply (stays_running items); [apply Inv_init|done|].
      apply Hsafe. }
    split; [apply Hrunning|].
    set (st := run sched (initState F (Rec <$> items))).
    set (net := answering (http.mkResponse 201 "201 Created" "")).
    exists (schedule L F regex ustr start net 0 (measure st) st).
    assert (main (run (sched ++ schedule L F regex ustr start net 0 (measure st) st)
                    (initState F (Rec <$> items))) = Returned) as Hm.
    { destruct (progress (Rec <$> items)
                  (run (sched ++ schedule L F regex ustr start net 0 (measure st) st)
                     (initState F (Rec <$> items)))) as [Hex'|Hm];
        [apply Inv_reachable|done| | |done].
      - rewrite run_app. by apply schedule_terminal.
      - by rewrite Hrunning in Hex'. }
    split; [done|]. by apply returned_summary.
Qed.

End RunFacts.

(** ** The statements at concrete inputs *)

Import Scenario.

Lemma dry_run_submission_never_parses_base_witness :
  restoreNoop dry = true /\
  url_Parse (lib archive) malformed = Err "parse :8484: missing protocol scheme" /\
  restoreFile (lib archive) dry unreachable malformed "a/1.txt" (Some meta1) =
    ([LogPrintf (Restoring "a/1.txt")], Some None) /\
  (forall i st st',
     step (lib archive) dry re malformed 0 (SchedWorker i unreachable) st = Some st' ->
     exited st' = false).
Proof.
  split; [reflexivity|]. split; [reflexivity|].
  apply (dry_run_submission_never_parses_base (lib archive) dry re malformed 0
           unreachable "a/1.txt" (Some meta1)).
  reflexivity.
Defined.

Lemma created_status_decides_outcome_witness :
  restoreNoop flags = false /\
  url_Parse (lib archive) base = Ok cbfs /\
  json_Marshal (lib archive) (Some meta1) = Ok meta1 /\
  failing target1 "application/json" meta1 = Ok failure /\
  ((restoreFile (lib archive) flags failing base "a/1.txt" (Some meta1)).2 = Some None
   <-> 500 = 201) /\
  (500 <> 201 ->
   (restoreFile (lib archive) flags failing base "a/1.txt" (Some meta1)).2
     = Some (Some "HTTP Error restoring a/1.txt: 500 Internal Server Error") /\
   (restoreFile (lib archive) flags failing base "a/1.txt" (Some meta1)).1
     = [LogPrintf (Restoring "a/1.txt");
        HttpPost target1 "application/json" meta1;
        LogPrintf (RestoreError "500 Internal Server Error");
        StderrWrite "disk full"; StderrWrite newline]).
Proof.
  do 4 (split; [reflexivity|]).
  apply (created_status_decides_outcome (lib archive) flags base failing
           "a/1.txt" (Some meta1) cbfs meta1 failure);
    reflexivity.
Defined.

Lemma request_url_replaces_base_path_witness :
  restoreNoop flags = false /\
  url_Parse (lib archive) nested
    = Ok (url.mkURL "http" "" None "cbfs:8484" "/store" "" "") /\
  json_Marshal (lib archive) (Some meta1) = Ok meta1 /\
  posts (restoreFile (lib archive) flags accepting nested "a/1.txt" (Some meta1)).1 =
    [("http://cbfs:8484/.cbfs/backup/restore/a/1.txt", "application/json", meta1)].
Proof.
  do 3 (split; [reflexivity|]).
  apply (request_url_replaces_base_path (lib archive) flags nested accepting
           "a/1.txt" (Some meta1)
           (url.mkURL "http" "" None "cbfs:8484" "/store" "" "") meta1);
    reflexivity.
Defined.

Lemma request_body_is_marshalled_metadata_witness :
  restoreNoop flags = false /\
  url_Parse (relib archive) base = Ok cbfs /\
  json_Marshal (relib archive) (Meta spaced) = Ok "[1,2]" /\
  posts (restoreFile (relib archive) flags accepting base (Path spaced)
           (Meta spaced)).1 =
    [(urlString (url.set_Path cbfs (restorePath (Path spaced))),
      "application/json", "[1,2]")].
Proof.
  do 3 (split; [reflexivity|]).
  apply (request_body_is_marshalled_metadata (relib archive) flags base accepting
           spaced cbfs); reflexivity.
Defined.

Lemma transport_failure_ends_the_run_witness :
  restoreNoop flags = false /\
  url_Parse (lib archive) base = Ok cbfs /\
  json_Marshal (lib archive) (Meta item1) = Ok meta1 /\
  unreachable target1 "application/json" meta1 = Err "dial tcp: connection refused" /\
  exited (posting unreachable) = false /\
  workers (posting unreachable) !! 0%nat = Some (WRestore item1) /\
  restoreFile (lib archive) flags unreachable base "a/1.txt" (Some meta1)
    = (refused, None) /\
  exists st',
    step (lib archive) flags re base 0 (SchedWorker 0 unreachable)
      (posting unreachable) = Some st' /\
    exited st' = true /\
    LogFatalf (ErrorExecutingPOST (url.set_Path cbfs (restorePath "a/1.txt"))
                 "dial tcp: connection refused") ∈ out st' /\
    forall sched',
      workers (run (lib archive) flags re base 0 sched' st') !! 0%nat
        = Some (WRestore item1) /\
      summaries (out (run (lib archive) flags re base 0 sched' st')) = [].
Proof.
  do 6 (split; [reflexivity|]).
  apply (transport_failure_ends_the_run (lib archive) flags re base 0 archive
           (handed_over unreachable) unreachable 0%nat item1 cbfs meta1
           "dial tcp: connection refused");
    reflexivity.
Defined.

Lemma failed_item_is_isolated_witness :
  Z.of_nat (length items) < 2 ^ 63 /\
  exited (posting failing) = false /\
  workers (posting failing) !! 0%nat = Some (WRestore item1) /\
  restoreFile (lib archive) flags failing base (Path item1) (Meta item1)
    = (rejected, Some (Some rejection)) /\
  exists st',
    step (lib archive) flags re base 0 (SchedWorker 0 failing) (posting failing)
      = Some st' /\
    main st' = main (posting failing) /\
    nfiles st' = nfiles (posting failing) /\
    sent st' = sent (posting failing) /\
    workers st' = <[0%nat:=WRecv]> (workers (posting failing)) /\
    exited st' = false /\
    out st' = out (posting failing) ++ rejected ++
                [LogPrintf (ErrorRestoring (Path item1) rejection)] /\
    forall sched', main (run (lib archive) flags re base 0 sched' st') = Returned ->
      exited (run (lib archive) flags re base 0 sched' st') = false /\
      summaries (out (run (lib archive) flags re base 0 sched' st')) =
        [Z.of_nat (length (matching (lib archive) re items))].
Proof.
  do 4 (split; [reflexivity|]).
  apply (failed_item_is_isolated (lib archive) flags re base 0 items
           (handed_over failing) failing 0%nat item1 rejected rejection);
    reflexivity.
Defined.

Lemma dispatched_are_the_matching_records_witness :
  Z.of_nat (length items) < 2 ^ 63 /\
  closed (main (finished accepting)) = true /\
  main (finished accepting) = Returned /\
  sent (finished accepting) = matching (lib archive) re items /\
  nfiles (finished accepting) = Z.of_nat (length (sent (finished accepting))) /\
  Z.of_nat (length (sent (finished accepting))) =
    Z.of_nat (length (List.filter
                        (fun ob => MatchString (lib archive) re (Path ob)) items)) /\
  summaries (out (finished accepting)) =
    [Z.of_nat (length (sent (finished accepting)))] /\
  0 < restoreWorkers flags /\
  url_Parse (lib archive) base = Ok cbfs /\
  exited (posting accepting) = false /\
  (exists sched',
     main (run (lib archive) flags re base 0 (handed_over accepting ++ sched')
             (initState flags (Rec <$> items))) = Returned /\
     sent (run (lib archive) flags re base 0 (handed_over accepting ++ sched')
             (initState flags (Rec <$> items))) = matching (lib archive) re items /\
     nfiles (run (lib archive) flags re base 0 (handed_over accepting ++ sched')
               (initState flags (Rec <$> items)))
       = Z.of_nat (length (matching (lib archive) re items)) /\
     summaries (out (run (lib archive) flags re base 0
                       (handed_over accepting ++ sched')
                       (initState flags (Rec <$> items))))
       = [Z.of_nat (length (matching (lib archive) re items))]).
Proof.
  pose proof (dispatched_are_the_matching_records (lib archive) flags re base 0
                items (to_the_end accepting) eq_refl) as (_ & _ & _ & Hclosed & _).
  pose proof (dispatched_are_the_matching_records (lib archive) flags re base 0
                items (handed_over accepting) eq_refl) as (_ & _ & _ & _ & Hlive).
  destruct (Hclosed eq_refl) as (Hsent & Hn & Hlen & Hsum).
  do 3 (split; [reflexivity|]).
  split; [exact Hsent|]. split; [exact Hn|]. split; [exact Hlen|].
  split; [exact (Hsum eq_refl)|].
  do 3 (split; [reflexivity|]).
  apply Hlive; [reflexivity| |reflexivity]. right. by exists cbfs.
Defined.

(** The end-to-end scenario of the specification: two requests, for
    [a/1.txt] and [a/3.txt], none for [b/2.txt], and a summary reporting 2. *)
Example end_to_end :
  main (finished accepting) = Returned /\
  sent (finished accepting) = [item1; item3] /\
  posts (out (finished accepting)) =
    [(target1, "application/json", meta1);
     ("http://cbfs:8484/.cbfs/backup/restore/a/3.txt", "application/json", meta3)] /\
  summaries (out (finished accepting)) = [2].
Proof. by vm_compute. Qed.

(** The failure-isolation scenario: the 500 for [a/1.txt] is logged, the
    request for [a/3.txt] is made all the same, and the summary reports 2. *)
Example failure_isolation :
  main (finished failing) = Returned /\
  out (finished failing) =
    rejected ++ [LogPrintf (ErrorRestoring "a/1.txt" rejection)] ++
    [LogPrintf (Restoring "a/3.txt");
     HttpPost "http://cbfs:8484/.cbfs/backup/restore/a/3.txt" "application/json" meta3;
     LogPrintf (Restored 2 7)].
Proof. by vm_compute. Qed.

Lemma dry_run_posts_nothing_and_reports_all_witness :
  restoreNoop dry = true /\
  0 < restoreWorkers dry /\
  Z.of_nat (length items) < 2 ^ 63 /\
  (forall net path data,
     restoreFile (lib archive) dry net malformed path data =
       ([LogPrintf (Restoring path)], Some None)) /\
  posts (out rehearsed) = [] /\
  exited rehearsed = false /\
  (terminal (lib archive) dry re malformed 0 rehearsed -> main rehearsed = Returned) /\
  (main rehearsed = Returned ->
   summaries (out rehearsed) = [Z.of_nat (length (matching (lib archive) re items))]) /\
  (exists sched',
     main (run (lib archive) dry re malformed 0 (rehearsal ++ sched')
             (initState dry (Rec <$> items))) = Returned).
Proof.
  do 3 (split; [reflexivity|]).
  apply (dry_run_posts_nothing_and_reports_all (lib archive) dry re malformed 0
           items rehearsal);
    reflexivity.
Defined.

(** The dry run against the malformed base: both matching records are
    logged, nothing is posted, and the summary reports 2. *)
Example dry_run_to_the_end :
  out rehearsed =
    [LogPrintf (Restoring "a/1.txt"); LogPrintf (Restoring "a/3.txt");
     LogPrintf (Restored 2 7)] /\
  main rehearsed = Returned.
Proof. by vm_compute. Qed.

Lemma malformed_record_aborts_the_run_witness :
  closed (main aborted) = false /\
  summaries (out aborted) = [] /\
  sent aborted `prefix_of` matching (lib damaged) re before /\
  (exists mid, unread (main aborted) = (Rec <$> mid) ++ Bad decode_error :: after) /\
  (exited aborted = false -> main aborted = Scanning (Bad decode_error :: after) ->
   forall now, exists st',
     step (lib damaged) flags re base 0 (SchedMain now) aborted = Some st' /\
     exited st' = true /\
     sent st' = sent aborted /\
     out st' = out aborted ++ [LogFatalf (ErrorReading decode_error)] /\
     forall sched', run (lib damaged) flags re base 0 sched' st' = st') /\
  (0 < restoreWorkers flags -> terminal (lib damaged) flags re base 0 aborted ->
   exited aborted = true).
Proof.
  apply (malformed_record_aborts_the_run (lib damaged) flags re base 0 before
           decode_error after).
Defined.

(** The run on the damaged archive: the record after the damaged one is
    neither read nor sent, and the only line logged is the fatal one. *)
Example damaged_archive :
  exited aborted = true /\
  main aborted = Scanning (Bad decode_error :: after) /\
  sent aborted = [item1] /\
  out aborted = [LogFatalf (ErrorReading decode_error)].
Proof. by vm_compute. Qed.

Lemma malformed_base_fails_at_first_submission_witness :
  url_Parse (lib archive) malformed = Err "parse :8484: missing protocol scheme" /\
  restoreNoop flags = false /\
  exited (run (lib archive) flags re malformed 0 (handed_over accepting)
            (initState flags archive)) = false /\
  workers (run (lib archive) flags re malformed 0 (handed_over accepting)
             (initState flags archive)) !! 0%nat = Some (WRestore item1) /\
  (Rec item1 ∈ archive /\
   MatchString (lib archive) re (Path item1) = true /\
   item1 ∈ sent (run (lib archive) flags re malformed 0 (handed_over accepting)
                   (initState flags archive)) /\
   nfiles (run (lib archive) flags re malformed 0 (handed_over accepting)
             (initState flags archive)) =
     counted (length (sent (run (lib archive) flags re malformed 0
                              (handed_over accepting) (initState flags archive)) ++
                      pending (main (run (lib archive) flags re malformed 0
                                       (handed_over accepting)
                                       (initState flags archive)))))) /\
  (exists st',
     step (lib archive) flags re malformed 0 (SchedWorker 0 accepting)
       (run (lib archive) flags re malformed 0 (handed_over accepting)
          (initState flags archive)) = Some st' /\
     exited st' = true /\
     nfiles st' = nfiles (run (lib archive) flags re malformed 0
                            (handed_over accepting) (initState flags archive)) /\
     sent st' = sent (run (lib archive) flags re malformed 0
                        (handed_over accepting) (initState flags archive)) /\
     LogFatalf (ErrorParsingURL "parse :8484: missing protocol scheme") ∈ out st' /\
     posts (out st') = []) /\
  matching (lib archive) "^c/" items = [] /\
  0 < restoreWorkers nothing /\
  Z.of_nat (length items) < 2 ^ 63 /\
  exited (run (lib archive) nothing "^c/" malformed 0 alone
            (initState nothing (Rec <$> items))) = false /\
  (exists sched',
     main (run (lib archive) nothing "^c/" malformed 0 (alone ++ sched')
             (initState nothing (Rec <$> items))) = Returned /\
     summaries (out (run (lib archive) nothing "^c/" malformed 0 (alone ++ sched')
                       (initState nothing (Rec <$> items))))
       = [Z.of_nat (length (matching (lib archive) "^c/" items))]).
Proof.
  pose proof (malformed_base_fails_at_first_submission (lib archive) flags re
                malformed 0 "parse :8484: missing protocol scheme" eq_refl)
    as (_ & _ & Hfatal & _).
  pose proof (malformed_base_fails_at_first_submission (lib archive) nothing "^c/"
                malformed 0 "parse :8484: missing protocol scheme" eq_refl)
    as (_ & _ & _ & Hquiet).
  destruct (Hfatal eq_refl archive (handed_over accepting) 0%nat accepting item1
              eq_refl eq_refl) as [Hheld Hstep].
  destruct (Hquiet items alone (or_intror eq_refl) eq_refl eq_refl)
    as [Hrunning Hreturns].
  do 4 (split; [reflexivity|]).
  split; [exact Hheld|]. split; [exact Hstep|].
  do 3 (split; [reflexivity|]).
  split; [exact Hrunning|exact Hreturns].
Defined.

(** ** Where the code departs from the specification *)

(** C1 does not hold as stated: with the endpoint unreachable, [restoreFile]
    yields no per-item error but ends the process; the worker is left where
    it was, the second matching record is never sent, and no summary is
    logged. *)
Lemma transport_failure_is_not_per_item :
  ~ (exists reason,
       (restoreFile (lib archive) flags unreachable base "a/1.txt" (Some meta1)).2
         = Some (Some reason)) /\
  restoreFile (lib archive) flags unreachable base "a/1.txt" (Some meta1)
    = (refused, None) /\
  exited (finished unreachable) = true /\
  workers (finished unreachable) = [WRestore item1; WRecv] /\
  sent (finished unreachable) = [item1] /\
  matching (lib archive) re items = [item1; item3] /\
  summaries (out (finished unreachable)) = [].
Proof.
  split; [|by vm_compute]. intros [reason H]. by vm_compute in H.
Qed.

(** C6 does not hold as stated: with a base [url.Parse] rejects, start-up
    succeeds; a run in which no record matches, and a dry run, go through to
    the summary; and a run that does submit exits only after a record was
    decoded, matched, counted and received by a worker. *)
Lemma malformed_base_passes_start_up :
  url_Parse (lib archive) malformed = Err "parse :8484: missing protocol scheme" /\
  (restoreCommand_init (lib archive) flags 0).2 = Some (re, 0, archive) /\
  main <$> outcome nothing malformed accepting = Some Returned /\
  out <$> outcome nothing malformed accepting = Some [LogPrintf (Restored 0 7)] /\
  main <$> outcome dry malformed accepting = Some Returned /\
  (summaries ∘ out) <$> outcome dry malformed accepting = Some [2] /\
  exited <$> outcome flags malformed accepting = Some true /\
  sent <$> outcome flags malformed accepting = Some [item1] /\
  workers <$> outcome flags malformed accepting = Some [WRestore item1; WRecv].
Proof. by vm_compute. Qed.

(** C7 does not hold as stated: for a base with a path component the request
    does not go below that path. *)
Lemma base_path_is_dropped :
  url_Parse (lib archive) nested
    = Ok (url.mkURL "http" "" None "cbfs:8484" "/store" "" "") /\
  posts (restoreFile (lib archive) flags accepting nested "a/1.txt" (Some meta1)).1
    = [("http://cbfs:8484/.cbfs/backup/restore/a/1.txt", "application/json", meta1)] /\
  "http://cbfs:8484/.cbfs/backup/restore/a/1.txt"
    <> nested +:+ "/.cbfs/backup/restore/" +:+ "a/1.txt".
Proof. by vm_compute. Qed.

(** C8 does not hold as stated: [json.Marshal] re-emits the raw metadata in
    compact form, so a record whose metadata was written [[1, 2]] is posted
    as [[1,2]]; and a record without metadata is posted as [null]. *)
Lemma body_is_not_the_wire_form :
  Meta spaced = Some "[1, 2]" /\
  posts (restoreFile (relib archive) flags accepting base (Path spaced)
           (Meta spaced)).1 = [(target1, "application/json", "[1,2]")] /\
  "[1,2]" <> "[1, 2]" /\
  Meta bare = None /\
  posts (restoreFile (relib archive) flags accepting base (Path bare)
           (Meta bare)).1 = [(target1, "application/json", "null")].
Proof. by vm_compute. Qed.

(** * Further properties of the code *)

(** ** One call of [restoreFile] *)

Section RestoreFileOutcomes.

Variable L : Lib.
Variable F : Flags.
Variable net : Network.
Variables base path : string.
Variable data : option RawMessage.

Ltac outcome_cases :=
  unfold restoreFile;
  destruct (restoreNoop F);
  [|destruct (url_Parse L base) as [u|?];
    [destruct (json_Marshal L data) as [b|?];
      [cbn;
       destruct (net (url_String L (url.set_Path u (restorePath path)))
                   "application/json" b) as [res|?] eqn:Hnet;
       [cbn; destruct (Z.eqb_spec (http.StatusCode res) 201)|]|]|]];
  cbn.

(** Every call logs its [Restoring] line exactly once, whatever happens
    next. *)
Lemma restoreFile_restored :
  restored (restoreFile L F net base path data).1 = [path].
Proof. by outcome_cases. Qed.

(** X1: which failures end the process and which are per-item.  A call of
    [restoreFile] ends the process exactly when, outside a dry run, the base
    does not parse, or the request was made and the network returned an error
    instead of a response.  It returns an error to the worker exactly when,
    outside a dry run and with a base that parses, the metadata does not
    serialize or the response has a status code other than 201. *)
Theorem restoreFile_outcomes :
  let r := restoreFile L F net base path data in
  (r.2 = None <->
   restoreNoop F = false /\
   ((exists err, url_Parse L base = Err err) \/
    (exists u body err,
       url_Parse L base = Ok u /\ json_Marshal L data = Ok body /\
       net (url_String L (url.set_Path u (restorePath path)))
         "application/json" body = Err err))) /\
  ((exists err, r.2 = Some (Some err)) <->
   restoreNoop F = false /\
   exists u, url_Parse L base = Ok u /\
     ((exists err, json_Marshal L data = Err err) \/
      (exists body res,
         json_Marshal L data = Ok body /\
         net (url_String L (url.set_Path u (restorePath path)))
           "application/json" body = Ok res /\
         http.StatusCode res <> 201))).
Proof.
  outcome_cases; (split; split); intros H;
    repeat match goal with
           | H : _ /\ _ |- _ => destruct H
           | H : _ \/ _ |- _ => destruct H
           | H : exists _, _ |- _ => destruct H
           end;
    simplify_eq; try congruence; eauto 12.
Qed.

End RestoreFileOutcomes.

Section RestoreFileRequests.

Variable L : Lib.
Variable F : Flags.
Variable ustr : string.

Lemma restoreFile_requests net ob :
  posts (restoreFile L F net ustr (Path ob) (Meta ob)).1 = requests L F ustr ob.
Proof.
  unfold requests. destruct (restoreNoop F) eqn:Hn.
  - by rewrite restoreFile_noop.
  - destruct (url_Parse L ustr) as [u|err] eqn:Hu.
    + destruct (json_Marshal L (Meta ob)) as [body|err] eqn:Hb.
      * by apply restoreFile_posts.
      * by rewrite (restoreFile_bad_meta _ _ _ _ _ _ u err).
    + by rewrite (restoreFile_bad_base _ _ _ _ _ _ err).
Qed.

(** X2: a call of [restoreFile] makes at most one HTTP request, and it makes
    one exactly when the run is not a dry run, the base parses and the
    metadata serializes; in particular a metadata that [json.Marshal] rejects
    is never posted. *)
Theorem restoreFile_posts_at_most_once net ob :
  let t := (restoreFile L F net ustr (Path ob) (Meta ob)).1 in
  (length (posts t) <= 1)%nat /\
  (posts t <> [] <->
   restoreNoop F = false /\
   (exists u, url_Parse L ustr = Ok u) /\
   (exists body, json_Marshal L (Meta ob) = Ok body)).
Proof.
  cbn zeta. rewrite restoreFile_requests. unfold requests.
  destruct (restoreNoop F); [|destruct (url_Parse L ustr) as [u|?];
    [destruct (json_Marshal L (Meta ob)) as [b|?]|]]; cbn;
    (split; [lia|]); split; try done; try (intros (? & [? ?] & [? ?]); done).
  intros _. eauto.
Qed.

End RestoreFileRequests.

(** ** Items in flight *)

Lemma in_flight_cons w ws : in_flight (w :: ws) = flight w ++ in_flight ws.
Proof. by destruct w. Qed.

Lemma in_flight_insert_perm ws i w w' :
  ws !! i = Some w ->
  in_flight (<[i:=w']> ws) ++ flight w ≡ₚ in_flight ws ++ flight w'.
Proof.
  revert i. induction ws as [|a ws IH]; intros [|i] Hi; try done.
  - injection Hi as ->. cbn [insert list_insert].
    rewrite !in_flight_cons.
    rewrite (Permutation_app_comm (flight w ++ in_flight ws)).
    by rewrite (Permutation_app_comm (flight w)), app_assoc.
  - cbn [insert list_insert]. rewrite !in_flight_cons, <- !app_assoc.
    by rewrite (IH i Hi).
Qed.

Lemma length_in_flight ws : (length (in_flight ws) <= length ws)%nat.
Proof.
  induction ws as [|w ws IH]; [done|]. rewrite in_flight_cons, length_app.
  destruct w; cbn; lia.
Qed.

Lemma in_flight_all_done ws : all_done ws = true -> in_flight ws = [].
Proof.
  intros H. apply elem_of_nil_inv. intros ob Hob.
  apply elem_of_in_flight in Hob. rewrite all_done_spec in H.
  by specialize (H _ Hob).
Qed.

(** ** Every item sent is restored once *)

Section Accounting.

Variable L : Lib.
Variable F : Flags.
Variable regex : Regexp L.
Variable ustr : string.
Variable start : Z.

Abbreviation step := (step L F regex ustr start).
Abbreviation run := (run L F regex ustr start).

(** A way [g] of reading a trace that sees, in every call of [restoreFile]
    for an item [ob], exactly [f ob], and sees nothing in the lines the
    goroutines log themselves. *)
Context {X : Type}.
Variable g : Event -> option X.
Variable f : restoreWorkItem -> list X.
Hypothesis g_call : forall net ob,
  omap g (restoreFile L F net ustr (Path ob) (Meta ob)).1 = f ob.
Hypothesis g_error : forall p e, g (LogPrintf (ErrorRestoring p e)) = None.
Hypothesis g_summary : forall n e, g (LogPrintf (Restored n e)) = None.

Lemma step_running c st st' : step c st = Some st' -> exited st = false.
Proof. unfold step. by destruct (exited st). Qed.

(** What the trace shows, with what the workers still hold, is what was
    sent, up to the order in which the workers got to it. *)
Lemma accounted_step c st st' :
  omap g (out st) ++ (in_flight (workers st) ≫= f) ≡ₚ sent st ≫= f ->
  step c st = Some st' -> exited st' = false ->
  omap g (out st') ++ (in_flight (workers st') ≫= f) ≡ₚ sent st' ≫= f.
Proof.
  intros Hacc. unfold step. destruct (exited st) eqn:Hex; [done|].
  destruct c as [now|i net].
  - unfold restoreCommand_step.
    destruct (main st) as [[|[ob|err] d]|ob d| |]; try done.
    + by intros [= <-].
    + by destruct (MatchString L regex (Path ob)); intros [= <-].
    + by intros [= <-].
    + destruct (all_done (workers st)); [|done]. intros [= <-] _. cbn -[in_flight].
      rewrite omap_app. cbn -[in_flight]. rewrite g_summary, app_nil_r. exact Hacc.
  - unfold restoreWorker_step.
    destruct (workers st !! i) as [[|ob|]|] eqn:Hi; try done.
    + destruct (main st) as [d|ob d| |]; try done; intros [= <-] _; cbn -[in_flight].
      * pose proof (in_flight_insert_perm _ _ _ (WRestore ob) Hi) as Hp.
        cbn in Hp. rewrite app_nil_r in Hp.
        rewrite Hp, !bind_app, app_assoc, Hacc. reflexivity.
      * pose proof (in_flight_insert_perm _ _ _ WDone Hi) as Hp.
        cbn in Hp. rewrite !app_nil_r in Hp. rewrite Hp. exact Hacc.
      * pose proof (in_flight_insert_perm _ _ _ WDone Hi) as Hp.
        cbn in Hp. rewrite !app_nil_r in Hp. rewrite Hp. exact Hacc.
    + pose proof (in_flight_insert_perm _ _ _ WRecv Hi) as Hp.
      cbn in Hp. rewrite app_nil_r in Hp.
      pose proof (g_call net ob) as Hg.
      destruct (restoreFile L F net ustr (Path ob) (Meta ob)) as [t [[err|]|]];
        cbn in Hg; [| |by intros [= <-]]; intros [= <-] _; cbn -[in_flight];
        rewrite <- Hacc, <- Hp, bind_app, !omap_app, Hg; cbn -[in_flight];
        rewrite ?g_error, ?app_nil_r, <- !app_assoc;
        apply Permutation_app_head, Permutation_app_comm.
Qed.

Lemma accounted_run sched st :
  (exited st = false ->
   omap g (out st) ++ (in_flight (workers st) ≫= f) ≡ₚ sent st ≫= f) ->
  exited (run sched st) = false ->
  omap g (out (run sched st)) ++ (in_flight (workers (run sched st)) ≫= f)
    ≡ₚ sent (run sched st) ≫= f.
Proof.
  revert st. induction sched as [|c sched IH]; intros st Hacc Hex; [by apply Hacc|].
  rewrite run_cons in Hex |- *.
  destruct (step c st) as [st'|] eqn:Hs; [|by apply IH].
  apply IH; [|done]. intros Hex'.
  apply (accounted_step c st); [|done..]. apply Hacc. by apply (step_running c st st').
Qed.

End Accounting.

(** ** With one worker, in archive order *)

Section Ordering.

Variable L : Lib.
Variable F : Flags.
Variable regex : Regexp L.
Variable ustr : string.
Variable start : Z.

Abbreviation step := (step L F regex ustr start).
Abbreviation run := (run L F regex ustr start).

Context {X : Type}.
Variable g : Event -> option X.
Variable f : restoreWorkItem -> list X.
Hypothesis g_call : forall net ob,
  omap g (restoreFile L F net ustr (Path ob) (Meta ob)).1 = f ob.
Hypothesis g_error : forall p e, g (LogPrintf (ErrorRestoring p e)) = None.
Hypothesis g_summary : forall n e, g (LogPrintf (Restored n e)) = None.

Lemma ordered_step c st st' :
  length (workers st) = 1%nat ->
  omap g (out st) ++ (in_flight (workers st) ≫= f) = sent st ≫= f ->
  step c st = Some st' -> exited st' = false ->
  length (workers st') = 1%nat /\
  omap g (out st') ++ (in_flight (workers st') ≫= f) = sent st' ≫= f.
Proof.
  intros Hlen Hacc. unfold step. destruct (exited st) eqn:Hex; [done|].
  destruct c as [now|i net].
  - unfold restoreCommand_step.
    destruct (main st) as [[|[ob|err] d]|ob d| |]; try done.
    + by intros [= <-].
    + by destruct (MatchString L regex (Path ob)); intros [= <-].
    + by intros [= <-].
    + destruct (all_done (workers st)); [|done]. intros [= <-] _.
      split; [done|]. cbn -[in_flight].
      rewrite omap_app. cbn -[in_flight]. by rewrite g_summary, app_nil_r.
  - unfold restoreWorker_step.
    destruct (workers st) as [|w [|w' ws]] eqn:Hws; try done.
    destruct i as [|i]; [|done]. cbn [lookup list_lookup].
    destruct w as [|ob|]; try done.
    + destruct (main st) as [d|ob d| |]; try done; intros [= <-] _;
        (split; [done|]); cbn in *.
      * rewrite app_nil_r in Hacc.
        by rewrite app_nil_r, bind_app, bind_singleton, <- Hacc.
      * done.
      * done.
    + pose proof (g_call net ob) as Hg.
      destruct (restoreFile L F net ustr (Path ob) (Meta ob)) as [t [[err|]|]];
        cbn in Hg; [| |by intros [= <-]]; intros [= <-] _;
        (split; [done|]); cbn in *;
        rewrite !app_nil_r in *; rewrite !omap_app, Hg; cbn;
        by rewrite ?g_error, ?app_nil_r.
Qed.

Lemma ordered_run sched st :
  length (workers st) = 1%nat ->
  (exited st = false ->
   omap g (out st) ++ (in_flight (workers st) ≫= f) = sent st ≫= f) ->
  exited (run sched st) = false ->
  omap g (out (run sched st)) ++ (in_flight (workers (run sched st)) ≫= f)
    = sent (run sched st) ≫= f.
Proof.
  revert st. induction sched as [|c sched IH]; intros st Hlen Hacc Hex;
    [by apply Hacc|].
  rewrite run_cons in Hex |- *.
  destruct (step c st) as [st'|] eqn:Hs; [|by apply IH].
  change (default st (Some st')) with st' in *.
  assert (exited st = false) as Hex0.
  { unfold step in Hs. by destruct (exited st). }
  destruct (exited st') eqn:Hex'.
  { rewrite run_terminal in Hex by (by apply exited_terminal). congruence. }
  destruct (ordered_step c st st' Hlen (Hacc Hex0) Hs Hex') as [Hlen' Hacc'].
  by apply IH.
Qed.

End Ordering.

(** ** Runs: what is restored, how often, in which order *)

Lemma in_flight_replicate n : in_flight (replicate n WRecv) = [].
Proof.
  apply elem_of_nil_inv. intros ob Hob. apply elem_of_in_flight in Hob.
  by apply elem_of_replicate_inv in Hob.
Qed.

Lemma bind_singleton_fmap {A B} (h : A -> B) (l : list A) :
  l ≫= (fun x => [h x]) = h <$> l.
Proof. induction l as [|x l IH]; [done|]. by rewrite bind_cons, IH. Qed.

Section RunOrder.

Variable L : Lib.
Variable F : Flags.
Variable regex : Regexp L.
Variable ustr : string.
Variable start : Z.

Abbreviation step := (step L F regex ustr start).
Abbreviation run := (run L F regex ustr start).
Abbreviation matching := (matching L regex).
Abbreviation requests := (requests L F ustr).

Lemma restored_accounted gz sched :
  exited (run sched (initState F gz)) = false ->
  restored (out (run sched (initState F gz))) ++
    (Path <$> in_flight (workers (run sched (initState F gz))))
  ≡ₚ Path <$> sent (run sched (initState F gz)).
Proof.
  intros Hex. rewrite <- !bind_singleton_fmap.
  apply (accounted_run L F regex ustr start
           (fun e => match e with LogPrintf (Restoring p) => Some p | _ => None end)
           (fun ob => [Path ob])); try done.
  - intros net ob. apply restoreFile_restored.
  - intros _. cbn. by rewrite in_flight_replicate.
Qed.

Lemma posts_accounted gz sched :
  exited (run sched (initState F gz)) = false ->
  posts (out (run sched (initState F gz))) ++
    (in_flight (workers (run sched (initState F gz))) ≫= requests)
  ≡ₚ sent (run sched (initState F gz)) ≫= requests.
Proof.
  intros Hex.
  apply (accounted_run L F regex ustr start
           (fun e => match e with HttpPost u c b => Some (u, c, b) | _ => None end)
           requests); try done.
  - intros net ob. apply restoreFile_requests.
  - intros _. cbn. by rewrite in_flight_replicate.
Qed.

(** X3: while the process runs, every item that was sent on the channel has
    been taken up by exactly one call of [restoreFile] or is still held by
    exactly one worker: the paths of the [Restoring] lines together with the
    paths of the items in flight are, up to order, the paths of the items
    sent; and the same for the requests made and the requests of the items
    sent. *)
Theorem every_sent_item_is_restored_once gz sched :
  let st := run sched (initState F gz) in
  exited st = false ->
  restored (out st) ++ (Path <$> in_flight (workers st)) ≡ₚ Path <$> sent st /\
  posts (out st) ++ (in_flight (workers st) ≫= requests) ≡ₚ sent st ≫= requests.
Proof.
  intros st Hex. split; [by apply restored_accounted|by apply posts_accounted].
Qed.

(** X4: when [restoreCommand] returns from a run over an archive of
    well-formed records, [restoreFile] has been called exactly once for each
    matching record and for no other, and the requests made are, up to
    order, the requests of the matching records: one for each whose metadata
    serializes. *)
Theorem returned_run_restored_each_match_once items sched :
  let st := run sched (initState F (Rec <$> items)) in
  main st = Returned ->
  restored (out st) ≡ₚ Path <$> matching items /\
  posts (out st) ≡ₚ matching items ≫= requests.
Proof.
  intros st Hm.
  pose proof (Inv_reachable L F regex ustr start (Rec <$> items) sched) as HI.
  fold st in HI.
  destruct (closed_count L F regex ustr start items sched) as (Hsent & _ & Hret).
  { fold st. by rewrite Hm. }
  fold st in Hsent, Hret. destruct (Hret Hm) as [Hex _].
  assert (in_flight (workers st) = []) as Hfl.
  { apply in_flight_all_done. by apply (inv_returned _ _ _ _ _ HI). }
  pose proof (restored_accounted (Rec <$> items) sched Hex) as Hr.
  pose proof (posts_accounted (Rec <$> items) sched Hex) as Hp.
  fold st in Hr, Hp. rewrite Hfl, Hsent in *. cbn in Hr, Hp.
  by rewrite !app_nil_r in *.
Qed.

Lemma restored_ordered gz sched :
  restoreWorkers F = 1 ->
  exited (run sched (initState F gz)) = false ->
  restored (out (run sched (initState F gz))) ++
    (Path <$> in_flight (workers (run sched (initState F gz))))
  = Path <$> sent (run sched (initState F gz)).
Proof.
  intros Hw Hex. rewrite <- !bind_singleton_fmap.
  apply (ordered_run L F regex ustr start
           (fun e => match e with LogPrintf (Restoring p) => Some p | _ => None end)
           (fun ob => [Path ob])); try done.
  - intros net ob. apply restoreFile_restored.
  - cbn. by rewrite Hw.
  - intros _. cbn. by rewrite in_flight_replicate.
Qed.

Lemma posts_ordered gz sched :
  restoreWorkers F = 1 ->
  exited (run sched (initState F gz)) = false ->
  posts (out (run sched (initState F gz))) ++
    (in_flight (workers (run sched (initState F gz))) ≫= requests)
  = sent (run sched (initState F gz)) ≫= requests.
Proof.
  intros Hw Hex.
  apply (ordered_run L F regex ustr start
           (fun e => match e with HttpPost u c b => Some (u, c, b) | _ => None end)
           requests); try done.
  - intros net ob. apply restoreFile_requests.
  - cbn. by rewrite Hw.
  - intros _. cbn. by rewrite in_flight_replicate.
Qed.

(** X5: with [-workers 1] the records are restored in archive order.  While
    the process runs, the [Restoring] lines, followed by the item the worker
    holds, list the items sent in the order they were sent, and the requests
    likewise; when [restoreCommand] returns from a run over an archive of
    well-formed records, the calls of [restoreFile] and the requests made are
    those of the matching records in the order of the archive. *)
Theorem one_worker_keeps_archive_order items sched :
  restoreWorkers F = 1 ->
  let st := run sched (initState F (Rec <$> items)) in
  (exited st = false ->
   restored (out st) ++ (Path <$> in_flight (workers st)) = Path <$> sent st /\
   posts (out st) ++ (in_flight (workers st) ≫= requests) = sent st ≫= requests) /\
  (main st = Returned ->
   restored (out st) = Path <$> matching items /\
   posts (out st) = matching items ≫= requests).
Proof.
  intros Hw st. split.
  - intros Hex. split; [by apply restored_ordered|by apply posts_ordered].
  - intros Hm.
    pose proof (Inv_reachable L F regex ustr start (Rec <$> items) sched) as HI.
    fold st in HI.
    destruct (closed_count L F regex ustr start items sched) as (Hsent & _ & Hret).
    { fold st. by rewrite Hm. }
    fold st in Hsent, Hret. destruct (Hret Hm) as [Hex _].
    assert (in_flight (workers st) = []) as Hfl.
    { apply in_flight_all_done. by apply (inv_returned _ _ _ _ _ HI). }
    pose proof (restored_ordered (Rec <$> items) sched Hw Hex) as Hr.
    pose proof (posts_ordered (Rec <$> items) sched Hw Hex) as Hp.
    fold st in Hr, Hp. rewrite Hfl, Hsent in *. cbn in Hr, Hp.
    by rewrite !app_nil_r in *.
Qed.

(** X6: at no moment are more items being restored than there are workers,
    and every item a worker holds is one that was sent on the channel. *)
Theorem in_flight_bounded_by_workers gz sched :
  let st := run sched (initState F gz) in
  (length (in_flight (workers st)) <= Z.to_nat (restoreWorkers F))%nat /\
  in_flight (workers st) ⊆ sent st.
Proof.
  intros st.
  pose proof (Inv_reachable L F regex ustr start gz sched) as HI. fold st in HI.
  destruct HI as [_ Hlen _ _ Hfl _ _ _]. split; [|done].
  rewrite <- Hlen. apply length_in_flight.
Qed.

(** X7: with at least one worker the goroutines never block each other for
    good.  Whatever the archive and the schedule so far, if no goroutine can
    run then the process has exited or [restoreCommand] has returned; and
    from every state reached the run can be continued to such an end. *)
Theorem no_deadlock_with_a_worker gz sched :
  0 < restoreWorkers F ->
  let st := run sched (initState F gz) in
  (terminal L F regex ustr start st -> exited st = true \/ main st = Returned) /\
  (exists sched',
     let st' := run (sched ++ sched') (initState F gz) in
     terminal L F regex ustr start st' /\
     (exited st' = true \/ main st' = Returned)).
Proof.
  intros Hw st. split.
  - apply (progress L F regex ustr start gz); [|done]. apply Inv_reachable.
  - exists (schedule L F regex ustr start (fun _ _ _ => Err "") 0 (measure st) st).
    cbn zeta.
    assert (terminal L F regex ustr start
              (run (sched ++ schedule L F regex ustr start (fun _ _ _ => Err "") 0
                               (measure st) st) (initState F gz))) as Hterm.
    { rewrite run_app. by apply schedule_terminal. }
    split; [done|].
    apply (progress L F regex ustr start gz); [apply Inv_reachable|done..].
Qed.

(** X8: a summary is logged at most once, it reports the counter [nfiles],
    and it is logged only when every worker has returned from its loop, no
    item is in flight any more, and no fatal error was logged. *)
Theorem summary_only_after_all_workers gz sched :
  let st := run sched (initState F gz) in
  summaries (out st) = [] \/
  (summaries (out st) = [nfiles st] /\
   main st = Returned /\
   all_done (workers st) = true /\
   in_flight (workers st) = [] /\
   fatals (out st) = [] /\
   exited st = false).
Proof.
  intros st.
  pose proof (Inv_reachable L F regex ustr start gz sched) as HI. fold st in HI.
  destruct HI as [_ _ _ Hret _ Hsum Hfat Hrun].
  destruct (main st) eqn:Hm; try by left.
  right. split_and!; try done.
  - by apply Hret.
  - apply in_flight_all_done. by apply Hret.
  - apply Hfat. by apply Hrun.
  - by apply Hrun.
Qed.

(** *** No worker at all *)

Lemma open_while_unmatched items st :
  Inv L F regex (Rec <$> items) st ->
  matching items <> [] -> sent st = [] ->
  closed (main st) = false /\
  forall d, main st = Scanning d -> exists ob d', d = Rec ob :: d'.
Proof.
  intros HI Hne Hsent.
  apply Inv_records in HI as (pre & rest & -> & Hu & Hs & _).
  rewrite Hsent in Hs. split.
  - destruct (main st) as [d|ob d| |] eqn:Hm; try done; destruct rest; try done;
      cbn in Hs; rewrite app_nil_r in Hne; by rewrite Hs in Hne.
  - intros d Hm. rewrite Hm in Hu, Hs. cbn in Hu, Hs.
    destruct rest as [|ob rest].
    + rewrite app_nil_r in Hne. by rewrite Hs in Hne.
    + exists ob, (Rec <$> rest). by rewrite Hu.
Qed.

Lemma no_workers_step items c st st' :
  Inv L F regex (Rec <$> items) st -> matching items <> [] ->
  workers st = [] /\ sent st = [] /\ out st = [] ->
  step c st = Some st' ->
  workers st' = [] /\ sent st' = [] /\ out st' = [].
Proof.
  intros HI Hne (Hws & Hsent & Hout).
  destruct (open_while_unmatched items st HI Hne Hsent) as [Hopen Hscan].
  unfold step. destruct (exited st); [done|]. destruct c as [now|i net].
  - unfold restoreCommand_step.
    destruct (main st) as [d|ob d| |] eqn:Hm; try done.
    destruct (Hscan d eq_refl) as (ob & d' & ->).
    by destruct (MatchString L regex (Path ob)); intros [= <-].
  - unfold restoreWorker_step. by rewrite Hws.
Qed.

Lemma no_workers_run items sched st :
  Inv L F regex (Rec <$> items) st -> matching items <> [] ->
  workers st = [] /\ sent st = [] /\ out st = [] ->
  workers (run sched st) = [] /\ sent (run sched st) = [] /\ out (run sched st) = [].
Proof.
  intros HI Hne. revert st HI. induction sched as [|c sched IH]; intros st HI HJ;
    [done|].
  rewrite run_cons. destruct (step c st) as [st'|] eqn:Hs; [|by apply IH].
  apply IH; [by apply (Inv_step L F regex ustr start _ c st)|].
  by apply (no_workers_step items c st).
Qed.

(** X9: with [-workers 0], or a negative count, no worker is started, and a
    run over an archive of well-formed records of which at least one matches
    never gets anywhere: nothing is ever sent, logged or posted, the channel
    is never closed and no summary is logged, the process does not exit, and
    when no goroutine can run any more the main goroutine is blocked sending
    a matching record, a state every run can be continued to. *)
Theorem without_workers_the_scan_blocks items sched :
  restoreWorkers F <= 0 ->
  matching items <> [] ->
  let st := run sched (initState F (Rec <$> items)) in
  workers st = [] /\ sent st = [] /\ out st = [] /\
  exited st = false /\ closed (main st) = false /\
  (terminal L F regex ustr start st ->
   exists ob d, main st = Sending ob d /\ MatchString L regex (Path ob) = true) /\
  (exists sched',
     terminal L F regex ustr start
       (run (sched ++ sched') (initState F (Rec <$> items)))).
Proof.
  intros Hw Hne st.
  pose proof (Inv_reachable L F regex ustr start (Rec <$> items) sched) as HI.
  fold st in HI.
  destruct (no_workers_run items sched (initState F (Rec <$> items)))
    as (Hws & Hsent & Hout).
  { apply Inv_init. } { done. }
  { cbn. split; [|done]. by rewrite Z2Nat.nonpos. }
  fold st in Hws, Hsent, Hout.
  destruct (open_while_unmatched items st HI Hne Hsent) as [Hopen _].
  assert (exited st = false) as Hex.
  { apply (inv_fatal _ _ _ _ _ HI). by rewrite Hout. }
  split_and!; try done.
  - intros Hterm. destruct (main st) as [d|ob d| |] eqn:Hm; try done.
    + destruct (step_scan_runs L F regex ustr start 0 st d Hex Hm) as [st' Hs].
      by rewrite Hterm in Hs.
    + exists ob, d. split; [done|].
      apply Inv_records in HI as (pre & rest & _ & _ & Hs & _).
      rewrite Hm, Hsent in Hs. cbn in Hs.
      apply (matching_matches L regex ob pre). rewrite Hs. by left.
  - exists (schedule L F regex ustr start (fun _ _ _ => Err "") 0 (measure st) st).
    rewrite run_app. by apply schedule_terminal.
Qed.

End RunOrder.

(** ** Start-up *)

Section StartUp.

Variable L : Lib.
Variable parse : list string -> result Flags.
Variable ustr : string.
Variable args : list string.
Variable now : Z.
Variable sched : list Choice.


End StartUp.

(** ** The counter *)

Section Counter.

Variable L : Lib.
Variable F : Flags.
Variable regex : Regexp L.
Variable ustr : string.
Variable start : Z.

Abbreviation step := (step L F regex ustr start).
Abbreviation run := (run L F regex ustr start).

(** X11: the counter [nfiles] is incremented before the send, so at every
    moment it is the number of items whose send has completed, plus one
    while the main goroutine is blocked sending; the record it is blocked
    on matches the pattern. *)
Theorem counter_at_most_one_ahead gz sched :
  Z.of_nat (length gz) < 2 ^ 63 ->
  let st := run sched (initState F gz) in
  nfiles st = Z.of_nat (length (sent st)) + Z.of_nat (length (pending (main st))) /\
  (length (pending (main st)) <= 1)%nat /\
  (forall ob, ob ∈ pending (main st) -> MatchString L regex (Path ob) = true).
Proof.
  intros Hlen st.
  pose proof (Inv_reachable L F regex ustr start gz sched) as HI. fold st in HI.
  destruct HI as [(pre & Hgz & Hs & Hn) _ _ _ _ _ _ _].
  assert (Z.of_nat (length (matching L regex pre)) < 2 ^ 63) as Hsmall.
  { pose proof (List.filter_length_le (matches L regex) pre) as Hle.
    unfold matching. rewrite Hgz, length_app, length_fmap in Hlen. lia. }
  split_and!.
  - rewrite Hn, counted_small by done. rewrite Hs, length_app. lia.
  - destruct (main st); cbn; lia.
  - intros ob Hob. apply (matching_matches L regex ob pre).
    rewrite Hs. apply elem_of_app. by right.
Qed.

End Counter.

(** ** The further properties at concrete inputs *)

Lemma every_sent_item_is_restored_once_witness :
  exited (run (lib archive) flags re base 0 (handed_over failing)
            (initState flags archive)) = false /\
  restored (out (run (lib archive) flags re base 0 (handed_over failing)
                   (initState flags archive))) ++
    (Path <$> in_flight (workers (run (lib archive) flags re base 0
                                    (handed_over failing) (initState flags archive))))
    ≡ₚ Path <$> sent (run (lib archive) flags re base 0 (handed_over failing)
                       (initState flags archive)) /\
  posts (out (run (lib archive) flags re base 0 (handed_over failing)
                (initState flags archive))) ++
    (in_flight (workers (run (lib archive) flags re base 0 (handed_over failing)
                           (initState flags archive)))
       ≫= requests (lib archive) flags base)
    ≡ₚ sent (run (lib archive) flags re base 0 (handed_over failing)
              (initState flags archive)) ≫= requests (lib archive) flags base.
Proof.
  split; [reflexivity|].
  apply (every_sent_item_is_restored_once (lib archive) flags re base 0 archive
           (handed_over failing)).
  reflexivity.
Defined.

Lemma returned_run_restored_each_match_once_witness :
  main (run (lib archive) flags re base 0 (to_the_end failing)
          (initState flags (Rec <$> items))) = Returned /\
  restored (out (run (lib archive) flags re base 0 (to_the_end failing)
                   (initState flags (Rec <$> items))))
    ≡ₚ Path <$> matching (lib archive) re items /\
  posts (out (run (lib archive) flags re base 0 (to_the_end failing)
                (initState flags (Rec <$> items))))
    ≡ₚ matching (lib archive) re items ≫= requests (lib archive) flags base.
Proof.
  split; [reflexivity|].
  apply (returned_run_restored_each_match_once (lib archive) flags re base 0 items
           (to_the_end failing)).
  reflexivity.
Defined.

Lemma one_worker_keeps_archive_order_witness :
  restoreWorkers single = 1 /\
  (exited (run (lib archive) single re base 0 one_by_one
             (initState single (Rec <$> items))) = false ->
   restored (out (run (lib archive) single re base 0 one_by_one
                    (initState single (Rec <$> items)))) ++
     (Path <$> in_flight (workers (run (lib archive) single re base 0 one_by_one
                                     (initState single (Rec <$> items)))))
     = Path <$> sent (run (lib archive) single re base 0 one_by_one
                        (initState single (Rec <$> items))) /\
   posts (out (run (lib archive) single re base 0 one_by_one
                 (initState single (Rec <$> items)))) ++
     (in_flight (workers (run (lib archive) single re base 0 one_by_one
                            (initState single (Rec <$> items))))
        ≫= requests (lib archive) single base)
     = sent (run (lib archive) single re base 0 one_by_one
               (initState single (Rec <$> items)))
         ≫= requests (lib archive) single base) /\
  (main (run (lib archive) single re base 0 one_by_one
           (initState single (Rec <$> items))) = Returned ->
   restored (out (run (lib archive) single re base 0 one_by_one
                    (initState single (Rec <$> items))))
     = Path <$> matching (lib archive) re items /\
   posts (out (run (lib archive) single re base 0 one_by_one
                 (initState single (Rec <$> items))))
     = matching (lib archive) re items ≫= requests (lib archive) single base).
Proof.
  split; [reflexivity|].
  apply (one_worker_keeps_archive_order (lib archive) single re base 0 items
           one_by_one).
  reflexivity.
Defined.

(** One worker, the first request answered 500: both records are restored,
    in the order of the archive, and the run returns. *)
Example one_worker_run :
  main (run (lib archive) single re base 0 one_by_one (initState single archive))
    = Returned /\
  restored (out (run (lib archive) single re base 0 one_by_one
                   (initState single archive))) = ["a/1.txt"; "a/3.txt"] /\
  posts (out (run (lib archive) single re base 0 one_by_one
                (initState single archive))) =
    [(target1, "application/json", meta1);
     ("http://cbfs:8484/.cbfs/backup/restore/a/3.txt", "application/json", meta3)].
Proof. by vm_compute. Qed.

Lemma no_deadlock_with_a_worker_witness :
  0 < restoreWorkers flags /\
  (terminal (lib damaged) flags re base 0
     (run (lib damaged) flags re base 0 (handed_over accepting)
        (initState flags damaged)) ->
   exited (run (lib damaged) flags re base 0 (handed_over accepting)
             (initState flags damaged)) = true \/
   main (run (lib damaged) flags re base 0 (handed_over accepting)
           (initState flags damaged)) = Returned) /\
  (exists sched',
     let st' := run (lib damaged) flags re base 0 (handed_over accepting ++ sched')
                  (initState flags damaged) in
     terminal (lib damaged) flags re base 0 st' /\
     (exited st' = true \/ main st' = Returned)).
Proof.
  split; [reflexivity|].
  apply (no_deadlock_with_a_worker (lib damaged) flags re base 0 damaged
           (handed_over accepting)).
  reflexivity.
Defined.

Lemma without_workers_the_scan_blocks_witness :
  restoreWorkers idle <= 0 /\
  matching (lib archive) re items <> [] /\
  workers (run (lib archive) idle re base 0 alone (initState idle (Rec <$> items)))
    = [] /\
  sent (run (lib archive) idle re base 0 alone (initState idle (Rec <$> items)))
    = [] /\
  out (run (lib archive) idle re base 0 alone (initState idle (Rec <$> items)))
    = [] /\
  exited (run (lib archive) idle re base 0 alone (initState idle (Rec <$> items)))
    = false /\
  closed (main (run (lib archive) idle re base 0 alone
                  (initState idle (Rec <$> items)))) = false /\
  (terminal (lib archive) idle re base 0
     (run (lib archive) idle re base 0 alone (initState idle (Rec <$> items))) ->
   exists ob d,
     main (run (lib archive) idle re base 0 alone (initState idle (Rec <$> items)))
       = Sending ob d /\
     MatchString (lib archive) re (Path ob) = true) /\
  (exists sched',
     terminal (lib archive) idle re base 0
       (run (lib archive) idle re base 0 (alone ++ sched')
          (initState idle (Rec <$> items)))).
Proof.
  split; [by vm_compute|]. split; [by vm_compute|].
  apply (without_workers_the_scan_blocks (lib archive) idle re base 0 items alone).
  - by vm_compute.
  - by vm_compute.
Defined.

(** No worker: the main goroutine is stuck sending the first record. *)
Example no_worker_run :
  run (lib archive) idle re base 0 alone (initState idle archive) =
    {| main := Sending item1 (Rec <$> [mkItem "b/2.txt" (Some meta2); item3]);
       nfiles := 1; workers := []; sent := []; out := []; exited := false |}.
Proof. by vm_compute. Qed.

Lemma counter_at_most_one_ahead_witness :
  Z.of_nat (length archive) < 2 ^ 63 /\
  nfiles (run (lib archive) idle re base 0 alone (initState idle archive)) =
    Z.of_nat (length (sent (run (lib archive) idle re base 0 alone
                              (initState idle archive)))) +
    Z.of_nat (length (pending (main (run (lib archive) idle re base 0 alone
                                       (initState idle archive))))) /\
  (length (pending (main (run (lib archive) idle re base 0 alone
                            (initState idle archive)))) <= 1)%nat /\
  (forall ob,
     ob ∈ pending (main (run (lib archive) idle re base 0 alone
                           (initState idle archive))) ->
     MatchString (lib archive) re (Path ob) = true).
Proof.
  split; [reflexivity|].
  apply (counter_at_most_one_ahead (lib archive) idle re base 0 archive alone).
  reflexivity.
Defined.
